(** * ChromaDbClient: the facade of [src/client/chromaClient.ts]

    A shallow embedding of the [ChromaDbClient] class.  The facade keeps four
    private fields ([connected], [config], [sdkClient], [adminClient]) and
    forwards every operation to the [chromadb] SDK.  The SDK is an external
    collaborator, so it is an interface here ([Host]); the facade's
    methods are programs in a state-and-exception monad over the facade's
    fields, the state of the outside world and the log of the requests that
    went out to the SDK. *)

From Stdlib Require Import List String Bool Arith.
From Stdlib Require Import Floats.PrimFloat.
From Stdlib Require Import DecimalString.
Import ListNotations.
Local Open Scope string_scope.
Local Open Scope list_scope.

Set Warnings "-register-all".

(** ** JavaScript values

    [metadata] is declared [any], and several SDK answers are used without a
    declared shape, so they are modelled as JavaScript values.  A [number] is
    an IEEE double.  An object is the ordered list of its own enumerable
    properties. *)

Inductive value : Type :=
| VUndefined
| VNull
| VBool (b : bool)
| VNum (x : float)
| VStr (s : string)
| VArr (xs : list value)
| VObj (fields : list (string * value)).

(** What a [throw] carries: [new Error(msg)], the [TypeError] of a property
    read on [null]/[undefined], or any other rejection reason. *)
Inductive exn : Type :=
| Error (message : string)
| TypeError (message : string)
| Rejected (reason : value).

Inductive result (A : Type) : Type :=
| Ok (a : A)
| Throw (e : exn).
Arguments Ok {A} a.
Arguments Throw {A} e.

(** [0], [-0] and [NaN] are the falsy numbers. *)
Definition falsy_number (x : float) : bool :=
  PrimFloat.eqb x 0%float || negb (PrimFloat.eqb x x).

Definition truthy (v : value) : bool :=
  match v with
  | VUndefined | VNull => false
  | VBool b => b
  | VNum x => negb (falsy_number x)
  | VStr s => negb (s =? "")
  | VArr _ | VObj _ => true
  end.

Definition nullish (v : value) : bool :=
  match v with
  | VUndefined | VNull => true
  | _ => false
  end.

(** [a || b] and [a ?? b] on values. *)
Definition or_else (a b : value) : value := if truthy a then a else b.
Definition coalesce (a b : value) : value := if nullish a then b else a.

(** [s || dflt] for an optional string: absent and [''] are falsy. *)
Definition str_or (s : option string) (dflt : string) : string :=
  match s with
  | Some x => if x =? "" then dflt else x
  | None => dflt
  end.

(** [x || dflt] for an optional number. *)
Definition num_or (x : option float) (dflt : float) : float :=
  match x with
  | Some n => if falsy_number n then dflt else n
  | None => dflt
  end.

(** [x ?? dflt] for an optional field. *)
Definition opt_coalesce {A} (x : option A) (dflt : A) : A :=
  match x with
  | Some a => a
  | None => dflt
  end.

(** [!!b] for an optional boolean. *)
Definition not_not (b : option bool) : bool :=
  match b with
  | Some true => true
  | _ => false
  end.

(** [Array.isArray(x)] for an optional array-typed field. *)
Definition Array_isArray {A} (x : option (list A)) : bool :=
  match x with
  | Some _ => true
  | None => false
  end.

Fixpoint lookup_field (k : string) (fields : list (string * value)) : value :=
  match fields with
  | [] => VUndefined
  | (k', v) :: rest => if k' =? k then v else lookup_field k rest
  end.

(** [v.k]: a [TypeError] on [undefined] and [null]; the own property of an
    object; [undefined] for the keys read here ([name], [id]) on primitives
    and arrays. *)
Definition get_prop (v : value) (k : string) : result value :=
  match v with
  | VUndefined => Throw (TypeError "Cannot read properties of undefined")
  | VNull => Throw (TypeError "Cannot read properties of null")
  | VObj fields => Ok (lookup_field k fields)
  | _ => Ok VUndefined
  end.

Definition index_key (i : nat) : string :=
  NilEmpty.string_of_uint (Nat.to_uint i).

(** [Object.keys(v)]: a [TypeError] on [undefined] and [null]; the indices of
    a string or an array; the own keys of an object; nothing for booleans and
    numbers. *)
Definition Object_keys (v : value) : result (list string) :=
  match v with
  | VUndefined | VNull =>
      Throw (TypeError "Cannot convert undefined or null to object")
  | VBool _ | VNum _ => Ok []
  | VStr s => Ok (map index_key (seq 0 (String.length s)))
  | VArr xs => Ok (map index_key (seq 0 (List.length xs)))
  | VObj fields => Ok (map fst fields)
  end.

(** ** Data model *)

(** [ChromaRecord]: what [listRecords] and [getRecord] hand out.  In the
    optional fields [None] stands for [undefined] and for the [null] the SDK
    may put in a result array; [metadata] is [any], with [VUndefined] for an
    absent value. *)
Record ChromaRecord : Type := {
  id : string;
  document : option string;
  metadata : value;
  embedding : option (list float)
}.

(** [Partial<ChromaRecord>]: the argument of [addRecord] and
    [updateRecord]. *)
Module Partial.
Record t : Type := {
  id : option string;
  document : option string;
  metadata : value;
  embedding : option (list float)
}.
End Partial.

(** The type of [this.config] and of [connect]'s argument. *)
Record Config : Type := {
  host : option string;
  port : option float;
  ssl : option bool;
  tenant : option string;
  database : option string;
  apiKey : option string
}.

(** [{}] *)
Definition empty_config : Config :=
  {| host := None; port := None; ssl := None;
     tenant := None; database := None; apiKey := None |}.

(** The [Partial<...>] argument of [sdkArgsFor]: a key is absent ([None]) or
    present with a possibly undefined value ([Some v]).  Spreading copies
    every present key, also one whose value is [undefined]. *)
Module Overrides.
Record t : Type := {
  host : option (option string);
  port : option (option float);
  ssl : option (option bool);
  tenant : option (option string);
  database : option (option string);
  apiKey : option (option string)
}.
End Overrides.

(** [{ tenant, database }] *)
Definition scope (tenant database : option string) : Overrides.t :=
  {| Overrides.host := None; Overrides.port := None; Overrides.ssl := None;
     Overrides.tenant := Some tenant; Overrides.database := Some database;
     Overrides.apiKey := None |}.

Definition spread {A} (base : option A) (over : option (option A)) : option A :=
  match over with
  | Some v => v
  | None => base
  end.

(** The argument of [new SDKChromaClient(...)]. *)
Module Args.
Record t : Type := {
  host : string;
  port : float;
  ssl : bool;
  tenant : option string;
  database : option string;
  headers : option (list (string * string))
}.
End Args.

(** The argument of [new AdminClient(...)]. *)
Module AdminArgs.
Record t : Type := {
  host : string;
  port : float;
  ssl : bool;
  headers : option (list (string * string))
}.
End AdminArgs.

(** [c.apiKey ? { 'x-chroma-token': c.apiKey } : undefined] *)
Definition token_header (key : option string) : option (list (string * string)) :=
  match key with
  | Some k => if k =? "" then None else Some [("x-chroma-token", k)]
  | None => None
  end.

(** *** Shapes exchanged with the SDK *)

(** [getUserIdentity()] *)
Record Identity : Type := {
  identity_tenant : option string
}.

(** An item of [client.listCollections()]. *)
Module Item.
Record t : Type := {
  id : option string;
  name : option string;
  count : option float
}.
End Item.

(** An element of what [listCollections] of the facade returns. *)
Module CollectionRef.
Record t : Type := {
  id : option string;
  name : option string;
  count : float
}.
End CollectionRef.

(** The answer of [col.get]: parallel arrays, each possibly missing, with
    [null] entries ([None]) allowed in documents and embeddings. *)
Record GetResult : Type := {
  res_ids : option (list string);
  res_documents : option (list (option string));
  res_metadatas : option (list value);
  res_embeddings : option (list (option (list float)))
}.

Record GetArgs : Type := {
  get_ids : option (list string);
  get_limit : option float;
  get_offset : option float;
  get_include : list string
}.

Record AddArgs : Type := {
  add_ids : list string;
  add_documents : list string;
  add_embeddings : list (list float);
  add_metadatas : option (list value)
}.

(** [ids: [record.id]] may hold [undefined]. *)
Record UpdateArgs : Type := {
  upd_ids : list (option string);
  upd_documents : option (list string);
  upd_metadatas : option (list value);
  upd_embeddings : option (list (list float))
}.

Record QueryOpts : Type := {
  queryTexts : option (list string);
  queryEmbeddings : option (list (list float));
  nResults : option float
}.

Record QueryArgs : Type := {
  q_queryTexts : option (list string);
  q_queryEmbeddings : option (list (list float));
  q_nResults : float
}.

(** ** The host: the [chromadb] package and the built-ins the facade calls

    Nothing of it lives in this repository.  Constructors build a local
    session object and may throw; every method is a request to the backing
    store: it answers or throws, and may change the world. *)

Class Host : Type := {
  World : Type;
  Client : Type;
  Admin : Type;
  Collection : Type;
  (* built-ins *)
  Date_now : World -> float * World;
  Math_random : World -> float * World;
  toString36 : float -> string;
  String_ : value -> string;
  (* chromadb *)
  new_SDKChromaClient : Args.t -> result Client;
  new_AdminClient : AdminArgs.t -> result Admin;
  client_version : Client -> World -> result string * World;
  client_getUserIdentity : Client -> World -> result Identity * World;
  client_listCollections : Client -> World -> result (list Item.t) * World;
  client_createCollection : Client -> string -> World -> result Collection * World;
  client_deleteCollection : Client -> string -> World -> result unit * World;
  client_getCollection : Client -> string -> World -> result Collection * World;
  client_getOrCreateCollection :
    Client -> string -> World -> result Collection * World;
  col_get : Collection -> GetArgs -> World -> result GetResult * World;
  col_add : Collection -> AddArgs -> World -> result unit * World;
  col_update : Collection -> UpdateArgs -> World -> result unit * World;
  col_delete : Collection -> list string -> World -> result unit * World;
  col_query : Collection -> QueryArgs -> World -> result value * World;
  col_modify : Collection -> string -> World -> result unit * World;
  admin_listDatabases : Admin -> string -> World -> result value * World;
  admin_createTenant : Admin -> string -> World -> result unit * World;
  admin_createDatabase : Admin -> string -> string -> World -> result unit * World;
  admin_deleteDatabase : Admin -> string -> string -> World -> result unit * World
}.

Section Facade.

Context {H : Host}.

(** What goes out to the backing store, one constructor per SDK method. *)
Inductive request : Type :=
| Req_version (cl : Client)
| Req_getUserIdentity (cl : Client)
| Req_listCollections (cl : Client)
| Req_createCollection (cl : Client) (name : string)
| Req_deleteCollection (cl : Client) (name : string)
| Req_getCollection (cl : Client) (name : string)
| Req_getOrCreateCollection (cl : Client) (name : string)
| Req_get (col : Collection) (args : GetArgs)
| Req_add (col : Collection) (args : AddArgs)
| Req_update (col : Collection) (args : UpdateArgs)
| Req_delete (col : Collection) (ids : list string)
| Req_query (col : Collection) (args : QueryArgs)
| Req_modify (col : Collection) (name : string)
| Req_listDatabases (a : Admin) (tenant : string)
| Req_createTenant (a : Admin) (name : string)
| Req_createDatabase (a : Admin) (tenant name : string)
| Req_deleteDatabase (a : Admin) (tenant name : string).

(** One entry of the wire log: the request and, when the store failed on it,
    what it threw. *)
Record exchange : Type := {
  sent : request;
  failure : option exn
}.

(** The private fields of the class. *)
Record ChromaDbClient : Type := {
  connected : bool;
  config : Config;
  sdkClient : option Client;
  adminClient : option Admin
}.

(** A freshly constructed facade. *)
Definition new_ChromaDbClient : ChromaDbClient :=
  {| connected := false; config := empty_config;
     sdkClient := None; adminClient := None |}.

Record state : Type := {
  this : ChromaDbClient;
  world : World;
  wire : list exchange
}.

(** *** The monad of the methods *)

Definition M (A : Type) : Type := state -> result A * state.

Definition ret {A} (a : A) : M A := fun s => (Ok a, s).

Definition throw {A} (e : exn) : M A := fun s => (Throw e, s).

Definition bind {A B} (m : M A) (k : A -> M B) : M B :=
  fun s =>
    match m s with
    | (Ok a, s') => k a s'
    | (Throw e, s') => (Throw e, s')
    end.

(** [try { body } catch (err) { handler }]: what [body] did to the state
    stays done. *)
Definition try_catch {A} (body : M A) (handler : exn -> M A) : M A :=
  fun s =>
    match body s with
    | (Ok a, s') => (Ok a, s')
    | (Throw e, s') => handler e s'
    end.

Definition get_this : M ChromaDbClient := fun s => (Ok (this s), s).

Definition modify_this (f : ChromaDbClient -> ChromaDbClient) : M unit :=
  fun s => (Ok tt, {| this := f (this s); world := world s; wire := wire s |}).

(** The outcome of a constructor or of a pure partial built-in. *)
Definition lift {A} (r : result A) : M A := fun s => (r, s).

(** A built-in that reads the world (clock, random source); nothing goes on
    the wire. *)
Definition effect {A} (f : World -> A * World) : M A :=
  fun s =>
    let (a, w) := f (world s) in
    (Ok a, {| this := this s; world := w; wire := wire s |}).

Definition failure_of {A} (r : result A) : option exn :=
  match r with
  | Ok _ => None
  | Throw e => Some e
  end.

(** [await sdk.method(...)]: the request is logged with its outcome. *)
Definition invoke {A} (q : request) (f : World -> result A * World) : M A :=
  fun s =>
    let (r, w) := f (world s) in
    (r, {| this := this s; world := w;
           wire := wire s ++ [{| sent := q; failure := failure_of r |}] |}).

(** [x!.method]: a [TypeError] when [x] is undefined. *)
Definition non_null {A} (x : option A) : M A :=
  match x with
  | Some a => ret a
  | None => throw (TypeError "Cannot read properties of undefined")
  end.

Fixpoint mapM {A B} (f : A -> result B) (xs : list A) : result (list B) :=
  match xs with
  | [] => Ok []
  | x :: rest =>
      match f x with
      | Throw e => Throw e
      | Ok y =>
          match mapM f rest with
          | Throw e => Throw e
          | Ok ys => Ok (y :: ys)
          end
      end
  end.

End Facade.

Declare Scope facade_scope.
Delimit Scope facade_scope with facade.
Notation "x <- m ;; k" := (bind m (fun x => k))
  (at level 61, m at next level, right associativity) : facade_scope.
Notation "m ;; k" := (bind m (fun _ => k))
  (at level 61, right associativity) : facade_scope.

(** ** The methods of [ChromaDbClient] *)

Section Methods.

Context {H : Host}.
Local Open Scope facade_scope.

(** [throw new Error('not connected')] *)
Definition not_connected : exn := Error "not connected".

(** [sdkArgsFor(cfg?)]: [c = { ...this.config, ...(cfg || {}) }], then the
    defaults. *)
Definition sdkArgsFor (self : ChromaDbClient) (cfg : option Overrides.t) : Args.t :=
  let over {A} (f : Overrides.t -> option (option A)) : option (option A) :=
    match cfg with
    | Some o => f o
    | None => None
    end in
  let c_host := spread (host (config self)) (over Overrides.host) in
  let c_port := spread (port (config self)) (over Overrides.port) in
  let c_ssl := spread (ssl (config self)) (over Overrides.ssl) in
  let c_tenant := spread (tenant (config self)) (over Overrides.tenant) in
  let c_database := spread (database (config self)) (over Overrides.database) in
  let c_apiKey := spread (apiKey (config self)) (over Overrides.apiKey) in
  {| Args.host := str_or c_host "localhost";
     Args.port := num_or c_port 8000%float;
     Args.ssl := not_not c_ssl;
     Args.tenant := c_tenant;
     Args.database := c_database;
     Args.headers := token_header c_apiKey |}.

(** The argument [connect] builds for [new AdminClient]. *)
Definition adminArgsOf (c : Config) : AdminArgs.t :=
  {| AdminArgs.host := str_or (host c) "localhost";
     AdminArgs.port := num_or (port c) 8000%float;
     AdminArgs.ssl := not_not (ssl c);
     AdminArgs.headers := token_header (apiKey c) |}.

Definition set_config (c : Config) (self : ChromaDbClient) : ChromaDbClient :=
  {| connected := connected self; config := c;
     sdkClient := sdkClient self; adminClient := adminClient self |}.

Definition set_connected (b : bool) (self : ChromaDbClient) : ChromaDbClient :=
  {| connected := b; config := config self;
     sdkClient := sdkClient self; adminClient := adminClient self |}.

Definition set_sdkClient (c : option Client) (self : ChromaDbClient) : ChromaDbClient :=
  {| connected := connected self; config := config self;
     sdkClient := c; adminClient := adminClient self |}.

Definition set_adminClient (a : option Admin) (self : ChromaDbClient) : ChromaDbClient :=
  {| connected := connected self; config := config self;
     sdkClient := sdkClient self; adminClient := a |}.

Definition connect (cfg : Config) : M bool :=
  modify_this (set_config cfg) ;;
  try_catch
    (self <- get_this ;;
     cl <- lift (new_SDKChromaClient (sdkArgsFor self None)) ;;
     modify_this (set_sdkClient (Some cl)) ;;
     self <- get_this ;;
     ad <- lift (new_AdminClient (adminArgsOf (config self))) ;;
     modify_this (set_adminClient (Some ad)) ;;
     self <- get_this ;;
     sdk <- non_null (sdkClient self) ;;
     invoke (Req_version sdk) (client_version sdk) ;;
     modify_this (set_connected true) ;;
     ret true)
    (fun _ =>
       modify_this (set_connected false) ;;
       modify_this (set_sdkClient None) ;;
       modify_this (set_adminClient None) ;;
       ret false).

Definition isConnected : M bool :=
  self <- get_this ;; ret (connected self).

Definition listTenants : M (list string) :=
  self <- get_this ;;
  if negb (connected self) then ret []
  else
    try_catch
      (self <- get_this ;;
       sdk <- non_null (sdkClient self) ;;
       identity <- invoke (Req_getUserIdentity sdk) (client_getUserIdentity sdk) ;;
       self <- get_this ;;
       ret [str_or (identity_tenant identity)
              (str_or (tenant (config self)) "default_tenant")])
      (fun _ =>
         self <- get_this ;;
         ret [str_or (tenant (config self)) "default_tenant"]).

(** [d.name ?? d.id ?? String(d)] *)
Definition database_label (d : value) : result value :=
  match get_prop d "name" with
  | Throw e => Throw e
  | Ok n =>
      if nullish n then
        match get_prop d "id" with
        | Throw e => Throw e
        | Ok i => if nullish i then Ok (VStr (String_ d)) else Ok i
        end
      else Ok n
  end.

Definition listDatabases (tenant_ : option string) : M (list value) :=
  self <- get_this ;;
  match connected self, adminClient self with
  | true, Some admin =>
      let tName := str_or tenant_ (str_or (tenant (config self)) "default_tenant") in
      try_catch
        (dbs <- invoke (Req_listDatabases admin tName)
                  (admin_listDatabases admin tName) ;;
         match dbs with
         | VArr ds => lift (mapM database_label ds)
         | _ => ret []
         end)
        (fun _ => ret [])
  | _, _ => ret []
  end.

(** [{ id: c.id ?? c.name, name: c.name ?? c.id, count: (c.count ?? 0) }] *)
Definition collection_ref (c : Item.t) : CollectionRef.t :=
  {| CollectionRef.id :=
       match Item.id c with Some i => Some i | None => Item.name c end;
     CollectionRef.name :=
       match Item.name c with Some n => Some n | None => Item.id c end;
     CollectionRef.count := opt_coalesce (Item.count c) 0%float |}.

Definition listCollections (tenant_ database_ : option string)
  : M (list CollectionRef.t) :=
  self <- get_this ;;
  if negb (connected self) then ret []
  else
    try_catch
      (self <- get_this ;;
       let args := sdkArgsFor self (Some (scope tenant_ database_)) in
       client <- lift (new_SDKChromaClient args) ;;
       cols <- invoke (Req_listCollections client) (client_listCollections client) ;;
       ret (map collection_ref cols))
      (fun _ => ret []).

(** [x === s] for an optional string field [x]. *)
Definition strict_eq (x : option string) (s : string) : bool :=
  match x with
  | Some y => y =? s
  | None => false
  end.

(** The [for (const item of cols)] loop of [resolveCollectionId]: [Some r]
    when the loop returns [r = item.id ?? item.name], [None] when it falls
    through. *)
Fixpoint first_match (cols : list Item.t) (collectionOrId : string)
  : option (option string) :=
  match cols with
  | [] => None
  | item :: rest =>
      if strict_eq (Item.id item) collectionOrId
         || strict_eq (Item.name item) collectionOrId
      then Some (match Item.id item with
                 | Some i => Some i
                 | None => Item.name item
                 end)
      else first_match rest collectionOrId
  end.

Definition resolveCollectionId (tenant_ database_ : option string)
    (collectionOrId : string) : M (option string) :=
  self <- get_this ;;
  if negb (connected self) then ret (Some collectionOrId)
  else
    found <- try_catch
      (self <- get_this ;;
       let args := sdkArgsFor self (Some (scope tenant_ database_)) in
       client <- lift (new_SDKChromaClient args) ;;
       cols <- invoke (Req_listCollections client) (client_listCollections client) ;;
       ret (first_match cols collectionOrId))
      (fun _ => ret None) ;;
    match found with
    | Some r => ret r
    | None => ret (Some collectionOrId)
    end.

(** The head every mutating method on a scoped client shares:
    [if (!this.connected) throw ...; const client = new SDKChromaClient(...)]. *)
Definition scoped_client (tenant_ database_ : option string) : M Client :=
  self <- get_this ;;
  if negb (connected self) then throw not_connected
  else
    self <- get_this ;;
    lift (new_SDKChromaClient (sdkArgsFor self (Some (scope tenant_ database_)))).

(** [catch (err) { throw err; }] *)
Definition rethrow {A} (err : exn) : M A := throw err.

Definition createCollection (tenant_ database_ : option string) (name : string)
  : M bool :=
  client <- scoped_client tenant_ database_ ;;
  try_catch
    (invoke (Req_createCollection client name)
       (client_createCollection client name) ;;
     ret true)
    rethrow.

Definition deleteCollection (tenant_ database_ : option string) (name : string)
  : M bool :=
  client <- scoped_client tenant_ database_ ;;
  try_catch
    (invoke (Req_deleteCollection client name)
       (client_deleteCollection client name) ;;
     ret true)
    rethrow.

(** [include: ['documents', 'metadatas', 'embeddings']] *)
Definition include_all : list string := ["documents"; "metadatas"; "embeddings"].

(** [xs || []] for a possibly missing result array. *)
Definition arr_or_empty {A} (xs : option (list A)) : list A :=
  opt_coalesce xs [].

(** [xs.length > 0] *)
Definition non_empty {A} (xs : list A) : bool := (0 <? List.length xs)%nat.

(** [xs[i]] where the entries themselves may be [null]: both an index out
    of range ([undefined]) and a [null] entry give [None]. *)
Definition at_index {A} (xs : list (option A)) (i : nat) : option A :=
  match nth_error xs i with
  | Some x => x
  | None => None
  end.

(** [metas[i]]: [undefined] out of range. *)
Definition meta_at (metas : list value) (i : nat) : value :=
  nth i metas VUndefined.

(** The object pushed at index [i] of the loop of [listRecords]:
    [{ id: ids[i], document: docs[i] ?? undefined,
       metadata: metas[i] ?? undefined, embedding: embs[i] ?? undefined }]. *)
Definition record_at (ids : list string) (docs : list (option string))
    (metas : list value) (embs : list (option (list float))) (i : nat)
  : ChromaRecord :=
  {| id := nth i ids "";
     document := at_index docs i;
     metadata := coalesce (meta_at metas i) VUndefined;
     embedding := at_index embs i |}.

(** [for (let i = 0; i < ids.length; i++) out.push(...)] *)
Definition zip_records (res : GetResult) : list ChromaRecord :=
  let ids := arr_or_empty (res_ids res) in
  let docs := arr_or_empty (res_documents res) in
  let metas := arr_or_empty (res_metadatas res) in
  let embs := arr_or_empty (res_embeddings res) in
  map (record_at ids docs metas embs) (seq 0 (List.length ids)).

Definition listRecords (tenant_ database_ : option string) (collection : string)
    (limit offset : option float) : M (list ChromaRecord) :=
  let limit := opt_coalesce limit 50%float in
  let offset := opt_coalesce offset 0%float in
  self <- get_this ;;
  if negb (connected self) then ret []
  else
    self <- get_this ;;
    client <- lift (new_SDKChromaClient
                      (sdkArgsFor self (Some (scope tenant_ database_)))) ;;
    try_catch
      (col <- invoke (Req_getCollection client collection)
                (client_getCollection client collection) ;;
       let args := {| get_ids := None; get_limit := Some limit;
                      get_offset := Some offset; get_include := include_all |} in
       res <- invoke (Req_get col args) (col_get col args) ;;
       ret (zip_records res))
      (fun _ => ret []).

(** [`id_${Date.now().toString(36)}${Math.random().toString(36).slice(2,8)}`] *)
Definition generated_id : M string :=
  now <- effect Date_now ;;
  rnd <- effect Math_random ;;
  ret ("id_" ++ toString36 now ++ substring 2 6 (toString36 rnd))%string.

(** [(Array.isArray(record.embedding) && record.embedding.length > 0)
     ? record.embedding : [0.0]] *)
Definition embeddingToSend (record : Partial.t) : list float :=
  if Array_isArray (Partial.embedding record)
     && non_empty (arr_or_empty (Partial.embedding record))
  then arr_or_empty (Partial.embedding record)
  else [0%float].

Definition is_undefined (v : value) : bool :=
  match v with
  | VUndefined => true
  | _ => false
  end.

(** [record.metadata !== undefined
     && Object.keys(record.metadata || {}).length > 0] *)
Definition has_metadata (record : Partial.t) : result bool :=
  if is_undefined (Partial.metadata record) then Ok false
  else
    match Object_keys (or_else (Partial.metadata record) (VObj [])) with
    | Throw e => Throw e
    | Ok keys => Ok (non_empty keys)
    end.

Definition addRecord (tenant_ database_ : option string) (collection : string)
    (record : Partial.t) : M string :=
  client <- scoped_client tenant_ database_ ;;
  id_ <- match Partial.id record with
         | Some i => if i =? "" then generated_id else ret i
         | None => generated_id
         end ;;
  let embeddingToSend := embeddingToSend record in
  try_catch
    (col <- invoke (Req_getOrCreateCollection client collection)
              (client_getOrCreateCollection client collection) ;;
     let addArgs :=
       {| add_ids := [id_];
          add_documents := [str_or (Partial.document record) ""];
          add_embeddings := [embeddingToSend];
          add_metadatas := None |} in
     with_meta <- lift (has_metadata record) ;;
     let addArgs :=
       if with_meta
       then {| add_ids := add_ids addArgs;
               add_documents := add_documents addArgs;
               add_embeddings := add_embeddings addArgs;
               add_metadatas := Some [Partial.metadata record] |}
       else addArgs in
     invoke (Req_add col addArgs) (col_add col addArgs) ;;
     ret id_)
    rethrow.

Definition getRecord (tenant_ database_ : option string) (collection : string)
    (id_ : string) : M (option ChromaRecord) :=
  self <- get_this ;;
  if negb (connected self) then ret None
  else
    self <- get_this ;;
    client <- lift (new_SDKChromaClient
                      (sdkArgsFor self (Some (scope tenant_ database_)))) ;;
    try_catch
      (col <- invoke (Req_getCollection client collection)
                (client_getCollection client collection) ;;
       let args := {| get_ids := Some [id_]; get_limit := None;
                      get_offset := None; get_include := include_all |} in
       res <- invoke (Req_get col args) (col_get col args) ;;
       match arr_or_empty (res_ids res) with
       | [] => ret None
       | id0 :: _ =>
           ret (Some {| id := id0;
                        document := at_index (arr_or_empty (res_documents res)) 0;
                        metadata := meta_at (arr_or_empty (res_metadatas res)) 0;
                        embedding := at_index (arr_or_empty (res_embeddings res)) 0 |})
       end)
      (fun _ => ret None).

Definition queryCollection (tenant_ database_ : option string)
    (collection : string) (opts : QueryOpts) : M value :=
  self <- get_this ;;
  if negb (connected self) then ret (VArr [])
  else
    self <- get_this ;;
    client <- lift (new_SDKChromaClient
                      (sdkArgsFor self (Some (scope tenant_ database_)))) ;;
    try_catch
      (col <- invoke (Req_getCollection client collection)
                (client_getCollection client collection) ;;
       let qArgs := {| q_queryTexts := queryTexts opts;
                       q_queryEmbeddings := queryEmbeddings opts;
                       q_nResults := opt_coalesce (nResults opts) 5%float |} in
       res <- invoke (Req_query col qArgs) (col_query col qArgs) ;;
       ret res)
      (fun _ => ret (VArr [])).

(** [if (!this.connected || !this.adminClient) throw new Error('not connected')] *)
Definition admin_session : M Admin :=
  self <- get_this ;;
  match connected self, adminClient self with
  | true, Some admin => ret admin
  | _, _ => throw not_connected
  end.

Definition createTenant (name : string) : M bool :=
  admin <- admin_session ;;
  try_catch
    (invoke (Req_createTenant admin name) (admin_createTenant admin name) ;;
     ret true)
    rethrow.

Definition createDatabase (tenant_ name : string) : M bool :=
  admin <- admin_session ;;
  try_catch
    (invoke (Req_createDatabase admin tenant_ name)
       (admin_createDatabase admin tenant_ name) ;;
     ret true)
    rethrow.

Definition deleteDatabase (tenant_ name : string) : M bool :=
  admin <- admin_session ;;
  try_catch
    (invoke (Req_deleteDatabase admin tenant_ name)
       (admin_deleteDatabase admin tenant_ name) ;;
     ret true)
    rethrow.

Definition renameCollection (tenant_ database_ : option string)
    (oldName newName : string) : M bool :=
  client <- scoped_client tenant_ database_ ;;
  try_catch
    (col <- invoke (Req_getCollection client oldName)
              (client_getCollection client oldName) ;;
     invoke (Req_modify col newName) (col_modify col newName) ;;
     ret true)
    rethrow.

(** [existing?.embedding && Array.isArray(existing.embedding)
     && existing.embedding.length > 0] *)
Definition reusable_embedding (existing : option ChromaRecord)
  : option (list float) :=
  match existing with
  | Some r =>
      match embedding r with
      | Some (x :: xs) => Some (x :: xs)
      | _ => None
      end
  | None => None
  end.

Definition set_embeddings (e : list float) (args : UpdateArgs) : UpdateArgs :=
  {| upd_ids := upd_ids args; upd_documents := upd_documents args;
     upd_metadatas := upd_metadatas args; upd_embeddings := Some [e] |}.

(** The embedding block of [updateRecord]: "prefer an explicit embedding;
    otherwise preserve the existing embedding for this id". *)
Definition choose_embeddings (tenant_ database_ : option string)
    (collection : string) (record : Partial.t) (args : UpdateArgs)
  : M UpdateArgs :=
  if Array_isArray (Partial.embedding record)
     && non_empty (arr_or_empty (Partial.embedding record))
  then ret (set_embeddings (arr_or_empty (Partial.embedding record)) args)
  else
    match Partial.id record with
    | Some i =>
        if i =? "" then ret args
        else
          try_catch
            (existing <- getRecord tenant_ database_ collection i ;;
             match reusable_embedding existing with
             | Some e => ret (set_embeddings e args)
             | None => ret args
             end)
            (fun _ => ret args)
    | None => ret args
    end.

Definition updateRecord (tenant_ database_ : option string) (collection : string)
    (record : Partial.t) : M bool :=
  client <- scoped_client tenant_ database_ ;;
  try_catch
    (col <- invoke (Req_getCollection client collection)
              (client_getCollection client collection) ;;
     let args :=
       {| upd_ids := [Partial.id record];
          upd_documents :=
            match Partial.document record with
            | Some d => Some [d]
            | None => None
            end;
          upd_metadatas :=
            if is_undefined (Partial.metadata record) then None
            else Some [Partial.metadata record];
          upd_embeddings := None |} in
     args <- choose_embeddings tenant_ database_ collection record args ;;
     invoke (Req_update col args) (col_update col args) ;;
     ret true)
    rethrow.

Definition deleteRecord (tenant_ database_ : option string) (collection : string)
    (id_ : string) : M bool :=
  client <- scoped_client tenant_ database_ ;;
  try_catch
    (col <- invoke (Req_getCollection client collection)
              (client_getCollection client collection) ;;
     invoke (Req_delete col [id_]) (col_delete col [id_]) ;;
     ret true)
    rethrow.

End Methods.

(** ** Vocabulary of the properties *)

Section Vocabulary.

Context {H : Host}.

(** The exchanges a run from [s] to [s'] added to the wire log. *)
Definition issued (s s' : state) : list exchange :=
  skipn (List.length (wire s)) (wire s').

Definition failed (x : exchange) : Prop := failure x <> None.

(** The exchange is a [col.update]. *)
Definition is_update (x : exchange) : Prop :=
  match sent x with
  | Req_update _ _ => True
  | _ => False
  end.

(** The state once an exchange answered with world [w] is logged. *)
Definition logged (s : state) (w : World) (x : exchange) : state :=
  {| this := this s; world := w; wire := wire s ++ [x] |}.

(** No usable embedding was supplied. *)
Definition empty_or_absent (e : option (list float)) : Prop :=
  e = None \/ e = Some [].

(** [Object.keys(m || {})] has at least one key. *)
Definition maps_a_key (m : value) : Prop :=
  exists k ks, Object_keys (or_else m (VObj [])) = Ok (k :: ks).

(** An item matches when its id or its name is the input. *)
Definition matches (x : string) (item : Item.t) : Prop :=
  Item.id item = Some x \/ Item.name item = Some x.

(** Whenever the store failed on a request of the run, the method returned
    [dflt] instead of throwing. *)
Definition swallowed_into {A} (m : M A) (dflt : state -> A) : Prop :=
  forall s res s',
    m s = (res, s') -> Exists failed (issued s s') -> res = Ok (dflt s).

(** Whatever the store threw on a request of the run is what the method
    throws. *)
Definition propagated {A} (m : M A) : Prop :=
  forall s res s' x e,
    m s = (res, s') -> In x (issued s s') -> failure x = Some e ->
    res = Throw e.

End Vocabulary.

(** ** A scripted host

    A host whose store answers every request from a fixed script: the session
    objects are the arguments they were built from, a collection is its name,
    and the world never changes.  The concrete runs below use it. *)

Module Scripted.

Record script : Type := {
  clock : float;
  dice : float;
  on_version : result string;
  on_getUserIdentity : result Identity;
  on_listCollections : result (list Item.t);
  on_getCollection : result unit;
  on_get : result GetResult;
  on_query : result value;
  on_write : result unit;
  on_listDatabases : result value
}.

Definition answer {A} (f : script -> result A) : script -> result A * script :=
  fun w => (f w, w).

Definition handle (name : string) (w : script) : result string * script :=
  match on_getCollection w with
  | Ok _ => (Ok name, w)
  | Throw e => (Throw e, w)
  end.

Definition stub : Host :=
  {| World := script;
     Client := Args.t;
     Admin := AdminArgs.t;
     Collection := string;
     Date_now := fun w => (clock w, w);
     Math_random := fun w => (dice w, w);
     toString36 := fun x => if PrimFloat.ltb x 1%float then "0.4fzyo82m" else "lq2x9c1f";
     String_ := fun v => match v with VStr x => x | _ => "[object Object]" end;
     new_SDKChromaClient := fun a => Ok a;
     new_AdminClient := fun a => Ok a;
     client_version := fun _ => answer on_version;
     client_getUserIdentity := fun _ => answer on_getUserIdentity;
     client_listCollections := fun _ => answer on_listCollections;
     client_createCollection := fun _ name => handle name;
     client_deleteCollection := fun _ _ => answer on_write;
     client_getCollection := fun _ name => handle name;
     client_getOrCreateCollection := fun _ name => handle name;
     col_get := fun _ _ => answer on_get;
     col_add := fun _ _ => answer on_write;
     col_update := fun _ _ => answer on_write;
     col_delete := fun _ _ => answer on_write;
     col_query := fun _ _ => answer on_query;
     col_modify := fun _ _ => answer on_write;
     admin_listDatabases := fun _ _ => answer on_listDatabases;
     admin_createTenant := fun _ _ => answer on_write;
     admin_createDatabase := fun _ _ _ => answer on_write;
     admin_deleteDatabase := fun _ _ _ => answer on_write |}.

Definition no_records : GetResult :=
  {| res_ids := Some []; res_documents := Some [];
     res_metadatas := Some []; res_embeddings := Some [] |}.

(** A store that is up and holds nothing. *)
Definition healthy : script :=
  {| clock := 1700000000000%float;
     dice := 0.25%float;
     on_version := Ok "1.0.0";
     on_getUserIdentity := Ok {| identity_tenant := Some "default_tenant" |};
     on_listCollections := Ok [];
     on_getCollection := Ok tt;
     on_get := Ok no_records;
     on_query := Ok (VObj []);
     on_write := Ok tt;
     on_listDatabases := Ok (VArr []) |}.

Definition fetch_failed : exn := Error "fetch failed".

(** A store that cannot be reached. *)
Definition unreachable : script :=
  {| clock := 1700000000000%float;
     dice := 0.25%float;
     on_version := Throw fetch_failed;
     on_getUserIdentity := Throw fetch_failed;
     on_listCollections := Throw fetch_failed;
     on_getCollection := Throw fetch_failed;
     on_get := Throw fetch_failed;
     on_query := Throw fetch_failed;
     on_write := Throw fetch_failed;
     on_listDatabases := Throw fetch_failed |}.

Definition local_config : Config :=
  {| host := Some "localhost"; port := Some 8000%float; ssl := Some false;
     tenant := None; database := None; apiKey := None |}.

(** Another deployment, with its own tenant and database. *)
Definition team_config : Config :=
  {| host := Some "chroma.internal"; port := Some 8443%float; ssl := Some true;
     tenant := Some "team-a"; database := Some "prod"; apiKey := Some "s3cret" |}.

(** The facade before and after a successful [connect local_config]. *)
Definition offline : @ChromaDbClient stub :=
  @Build_ChromaDbClient stub false local_config None None.

Definition online : @ChromaDbClient stub :=
  @Build_ChromaDbClient stub true local_config
    (Some (@sdkArgsFor stub offline None))
    (Some (adminArgsOf local_config)).

(** [{ document: 'hello' }] *)
Definition hello : Partial.t :=
  {| Partial.id := None; Partial.document := Some "hello";
     Partial.metadata := VUndefined; Partial.embedding := None |}.

(** [{ id: 'r1', document: 'hello', metadata: { lang: 'en' },
       embedding: [0.5, 0.25] }] *)
Definition full : Partial.t :=
  {| Partial.id := Some "r1"; Partial.document := Some "hello";
     Partial.metadata := VObj [("lang", VStr "en")];
     Partial.embedding := Some [0.5%float; 0.25%float] |}.

Definition start (self : @ChromaDbClient stub) (w : script) : @state stub :=
  @Build_state stub self w [].

(** A connected facade in front of the healthy store. *)
Definition ready : @state stub := start online healthy.

(** The answer to a [get] with [limit: 2]: record A in full, record B with a
    [null] document, a [null] metadata and a [null] embedding. *)
Definition two_rows : GetResult :=
  {| res_ids := Some ["A"; "B"];
     res_documents := Some [Some "alpha"; None];
     res_metadatas := Some [VObj [("lang", VStr "en")]; VNull];
     res_embeddings := Some [Some [0.5%float]; None] |}.

Definition stocked : script :=
  {| clock := clock healthy; dice := dice healthy;
     on_version := on_version healthy;
     on_getUserIdentity := on_getUserIdentity healthy;
     on_listCollections := on_listCollections healthy;
     on_getCollection := on_getCollection healthy;
     on_get := Ok two_rows;
     on_query := on_query healthy;
     on_write := on_write healthy;
     on_listDatabases := on_listDatabases healthy |}.

(** Two collections where the name of the first is the id of the second. *)
Definition clashing : list Item.t :=
  [ {| Item.id := Some "a1"; Item.name := Some "b2"; Item.count := None |};
    {| Item.id := Some "b2"; Item.name := Some "reports"; Item.count := None |} ].

Definition ambiguous : script :=
  {| clock := clock healthy; dice := dice healthy;
     on_version := on_version healthy;
     on_getUserIdentity := on_getUserIdentity healthy;
     on_listCollections := Ok clashing;
     on_getCollection := on_getCollection healthy;
     on_get := on_get healthy;
     on_query := on_query healthy;
     on_write := on_write healthy;
     on_listDatabases := on_listDatabases healthy |}.

(** A store whose [get] fails while everything else answers. *)
Definition flaky_reads : script :=
  {| clock := clock healthy; dice := dice healthy;
     on_version := on_version healthy;
     on_getUserIdentity := on_getUserIdentity healthy;
     on_listCollections := on_listCollections healthy;
     on_getCollection := on_getCollection healthy;
     on_get := Throw fetch_failed;
     on_query := on_query healthy;
     on_write := on_write healthy;
     on_listDatabases := on_listDatabases healthy |}.

(** [{ id: 'A', document: 'new text' }] *)
Definition retitle : Partial.t :=
  {| Partial.id := Some "A"; Partial.document := Some "new text";
     Partial.metadata := VUndefined; Partial.embedding := None |}.

(** What [addRecord] builds for [full]. *)
Definition full_add : AddArgs :=
  {| add_ids := ["r1"]; add_documents := ["hello"];
     add_embeddings := [[0.5%float; 0.25%float]];
     add_metadatas := Some [VObj [("lang", VStr "en")]] |}.

End Scripted.

(** ** The command of [src/commands/tenantCommands.ts]

    [registerTenantCommands] registers one command, ['chromadb.createTenant'],
    whose handler prompts for a name, calls [createTenant] on the provider's
    client, shows a message and refreshes the tree.  The editor API and the
    tree provider live outside this repository's sources: they are an
    interface, and what the handler does on screen is logged. *)

Class Editor {H : Host} : Type := {
  (* [vscode.window.showInputBox]: [None] when the box is dismissed *)
  showInputBox : string -> World -> option string * World;
  (* [vscode.window.showInformationMessage], not awaited *)
  showInformationMessage : string -> World -> World;
  (* [provider.refresh()] *)
  provider_refresh : World -> result unit * World
}.

(** What the handler did on screen. *)
Inductive ui_action : Type :=
| Prompted (prompt : string)
| Informed (message : string)
| Refreshed.

Section Commands.

Context {H : Host} {E : Editor}.

(** The facade's state, with the screen log beside it. *)
Record session : Type := {
  backend : state;
  screen : list ui_action
}.

Definition Cmd (A : Type) : Type := session -> result A * session.

Definition cmd_ret {A} (a : A) : Cmd A := fun u => (Ok a, u).

Definition cmd_bind {A B} (m : Cmd A) (k : A -> Cmd B) : Cmd B :=
  fun u =>
    match m u with
    | (Ok a, u') => k a u'
    | (Throw e, u') => (Throw e, u')
    end.

(** A call on [provider.client]. *)
Definition on_client {A} (m : M A) : Cmd A :=
  fun u =>
    let (r, s') := m (backend u) in
    (r, {| backend := s'; screen := screen u |}).

Definition with_world (w : World) (s : state) : state :=
  {| this := this s; world := w; wire := wire s |}.

Definition prompt_for (prompt : string) : Cmd (option string) :=
  fun u =>
    let (answer, w) := showInputBox prompt (world (backend u)) in
    (Ok answer,
     {| backend := with_world w (backend u);
        screen := screen u ++ [Prompted prompt] |}).

Definition inform (message : string) : Cmd unit :=
  fun u =>
    (Ok tt,
     {| backend := with_world (showInformationMessage message (world (backend u)))
                     (backend u);
        screen := screen u ++ [Informed message] |}).

Definition refresh : Cmd unit :=
  fun u =>
    let (r, w) := provider_refresh (world (backend u)) in
    (r, {| backend := with_world w (backend u);
           screen := screen u ++ [Refreshed] |}).

(** The handler registered for ['chromadb.createTenant']. *)
Definition createTenant_handler : Cmd unit :=
  cmd_bind (prompt_for "New tenant name") (fun name =>
  match name with
  | None => cmd_ret tt
  | Some n =>
      if n =? "" then cmd_ret tt
      else
        cmd_bind (on_client (createTenant n)) (fun _ =>
        cmd_bind (inform ("Tenant '" ++ n ++ "' created")%string) (fun _ =>
        refresh))
  end).

(** [registerTenantCommands]: the commands pushed on
    [context.subscriptions], by id. *)
Definition registerTenantCommands : list (string * Cmd unit) :=
  [("chromadb.createTenant", createTenant_handler)].

End Commands.

(** ** Vocabulary of the further properties *)

Section Kinds.

Context {H : Host}.

(** The SDK methods that only read from the store. *)
Definition reads_only (q : request) : Prop :=
  match q with
  | Req_version _ | Req_getUserIdentity _ | Req_listCollections _
  | Req_getCollection _ _ | Req_get _ _ | Req_query _ _
  | Req_listDatabases _ _ => True
  | _ => False
  end.

(** The SDK methods that may bring a collection into being. *)
Definition may_create_collection (q : request) : Prop :=
  match q with
  | Req_createCollection _ _ | Req_getOrCreateCollection _ _ => True
  | _ => False
  end.

(** The facade's fields satisfy what [connect] establishes: a connected
    facade holds both sessions. *)
Definition sessions_held (self : ChromaDbClient) : Prop :=
  connected self = true ->
  sdkClient self <> None /\ adminClient self <> None.

(** The scoped client a request is made on, if it is made on one. *)
Definition client_of (q : request) : option Client :=
  match q with
  | Req_listCollections cl | Req_createCollection cl _
  | Req_deleteCollection cl _ | Req_getCollection cl _
  | Req_getOrCreateCollection cl _ => Some cl
  | _ => None
  end.

(** The method leaves the facade's fields as they were. *)
Definition keeps_facade {A} (m : M A) : Prop :=
  forall s res s', m s = (res, s') -> this s' = this s.

(** The method returns a value in every state. *)
Definition never_throws {A} (m : M A) : Prop :=
  forall s res s', m s = (res, s') -> exists v, res = Ok v.

(** Every request of the method satisfies [P]. *)
Definition sends_only {A} (P : request -> Prop) (m : M A) : Prop :=
  forall s res s' x, m s = (res, s') -> In x (issued s s') -> P (sent x).

(** A [boolean] method that never returns [false]. *)
Definition true_or_throws (m : M bool) : Prop :=
  forall s b s', m s = (Ok b, s') -> b = true.

(** The method throws only what the session constructor threw, before
    anything was sent. *)
Definition throws_only_construction {A} (t d : option string) (m : M A) : Prop :=
  forall s e s',
    m s = (Throw e, s') ->
    connected (this s) = true
    /\ new_SDKChromaClient (sdkArgsFor (this s) (Some (scope t d))) = Throw e
    /\ s' = s.

(** Every request the method makes on a client goes to a client built for
    the scope [{ tenant: t, database: d }]. *)
Definition scoped_to {A} (t d : option string) (m : M A) : Prop :=
  forall s res s' x cl,
    m s = (res, s') -> In x (issued s s') ->
    client_of (sent x) = Some cl ->
    new_SDKChromaClient (sdkArgsFor (this s) (Some (scope t d))) = Ok cl.

(** The facade a failed [connect cfg] leaves. *)
Definition refused (cfg : Config) : ChromaDbClient :=
  {| connected := false; config := cfg;
     sdkClient := None; adminClient := None |}.

End Kinds.

(** An editor for the scripted host: the box answers [typed]; showing a
    message and refreshing change nothing. *)
Definition scripted_editor (typed : option string) : @Editor Scripted.stub :=
  {| showInputBox := fun _ w => (typed, w);
     showInformationMessage := fun _ w => w;
     provider_refresh := fun w => (Ok tt, w) |}.

(** A store with two databases, the second one without a name. *)
Definition two_databases : Scripted.script :=
  {| Scripted.clock := Scripted.clock Scripted.healthy;
     Scripted.dice := Scripted.dice Scripted.healthy;
     Scripted.on_version := Scripted.on_version Scripted.healthy;
     Scripted.on_getUserIdentity := Scripted.on_getUserIdentity Scripted.healthy;
     Scripted.on_listCollections := Scripted.on_listCollections Scripted.healthy;
     Scripted.on_getCollection := Scripted.on_getCollection Scripted.healthy;
     Scripted.on_get := Scripted.on_get Scripted.healthy;
     Scripted.on_query := Scripted.on_query Scripted.healthy;
     Scripted.on_write := Scripted.on_write Scripted.healthy;
     Scripted.on_listDatabases :=
       Ok (VArr [VObj [("name", VStr "main")]; VObj [("id", VStr "db-2")]]) |}.

(** The editor in front of a connected facade, nothing on screen yet. *)
Definition at_rest : @session Scripted.stub :=
  {| backend := Scripted.ready; screen := [] |}.

(** [{ queryTexts: ['hello'] }] *)
Definition ask_hello : QueryOpts :=
  {| queryTexts := Some ["hello"]; queryEmbeddings := None; nResults := None |}.

(** ** Properties

    First the wire log. *)

Section WireLog.

Context {H : Host}.
Local Open Scope facade_scope.

Lemma skipn_past {A} (l m : list A) : skipn (List.length l) (l ++ m) = m.
Proof. induction l as [|a l IH]; simpl; auto. Qed.

Lemma issued_none (s : state) : issued s s = [].
Proof.
  unfold issued. rewrite <- (app_nil_r (wire s)) at 2. apply skipn_past.
Qed.

Lemma issued_app (self : ChromaDbClient) (w : World) (s : state)
    (new : list exchange) :
  issued s {| this := self; world := w; wire := wire s ++ new |} = new.
Proof. unfold issued; simpl. apply skipn_past. Qed.

Lemma issued_same_wire (self : ChromaDbClient) (w : World) (s : state) :
  issued s {| this := self; world := w; wire := wire s |} = [].
Proof.
  unfold issued; simpl. rewrite <- (app_nil_r (wire s)) at 2. apply skipn_past.
Qed.

End WireLog.

(** *** Proof automation *)

(** Unfolds the monad and the shared method heads. *)
Ltac unfold_facade :=
  unfold scoped_client, admin_session, generated_id, rethrow in *;
  unfold bind, ret, throw, try_catch, get_this, modify_this, lift, invoke,
    effect, non_null in *.

(** Splits on the innermost scrutinee of a run equation. *)
Ltac innermost x :=
  match x with
  | context [match ?y with _ => _ end] => innermost y
  | _ => destruct x eqn:?
  end.

Ltac split_in Hyp :=
  match type of Hyp with
  | context [match ?x with _ => _ end] => innermost x
  end.

Ltac split_goal :=
  match goal with
  | |- context [match ?x with _ => _ end] => innermost x
  end.

(** Brings the wire log of the final state to the form [issued] reads. *)
Ltac wire_norm :=
  cbn [this world wire] in *;
  repeat rewrite <- app_assoc in *;
  rewrite ?issued_app, ?issued_same_wire, ?issued_none in *.

(** Runs a method symbolically: one case per outcome of each host call. *)
Ltac run_cases Hrun :=
  unfold_facade;
  repeat (unfold ret, throw in Hrun; split_in Hrun; try discriminate);
  unfold ret, throw in Hrun;
  inversion Hrun; subst; clear Hrun;
  wire_norm.

(** Finds which logged exchange a membership hypothesis speaks of. *)
Ltac which_exchange Hin :=
  simpl in Hin;
  repeat match type of Hin with
         | _ \/ _ => destruct Hin as [Hin | Hin]
         | False => contradiction
         end;
  try discriminate;
  inversion Hin; subst; clear Hin.

(** Settles a read: no logged failure, or the fallback came back. *)
Ltac swallow_cases Hrun Hfail :=
  let x := fresh "x" in
  let Hin := fresh "Hin" in
  let Hf := fresh "Hf" in
  apply Exists_exists in Hfail as (x & Hin & Hf);
  unfold failed in Hf;
  run_cases Hrun;
  simpl in Hin;
  repeat (destruct Hin as [Hin | Hin]);
  try contradiction; subst; simpl in Hf; congruence.

(** Settles a write: the logged failure is the one thrown. *)
Ltac propagate_cases Hrun Hin Hf :=
  run_cases Hrun;
  simpl in Hin;
  repeat (destruct Hin as [Hin | Hin]);
  try contradiction; subst; simpl in Hf; congruence.

(** *** The model at work on the scripted host *)

(** [connect] against the healthy store sets the flag and keeps both
    sessions; exactly one request, [version], went out. *)
Example connect_healthy :
  fst (@connect Scripted.stub Scripted.local_config
         (Scripted.start new_ChromaDbClient Scripted.healthy)) = Ok true
  /\ this (snd (@connect Scripted.stub Scripted.local_config
                  (Scripted.start new_ChromaDbClient Scripted.healthy)))
     = Scripted.online
  /\ map failure
       (wire (snd (@connect Scripted.stub Scripted.local_config
                     (Scripted.start new_ChromaDbClient Scripted.healthy))))
     = [None].
Proof. repeat split; reflexivity. Qed.

(** [sdkArgsFor({ tenant, database })] with both undefined: the spread
    copies the two keys, so the configured tenant and database are not used
    for a scoped session. *)
Example scope_hides_configured_tenant :
  Args.tenant
    (@sdkArgsFor Scripted.stub
       (@Build_ChromaDbClient Scripted.stub true Scripted.team_config None None)
       (Some (scope None None))) = None
  /\ Args.tenant
       (@sdkArgsFor Scripted.stub
          (@Build_ChromaDbClient Scripted.stub true Scripted.team_config None None)
          None) = Some "team-a".
Proof. split; reflexivity. Qed.

(** [addRecord] of a record without id returns the generated one. *)
Example addRecord_generates_id :
  fst (@addRecord Scripted.stub None None "docs" Scripted.hello Scripted.ready)
  = Ok "id_lq2x9c1f4fzyo8".
Proof. reflexivity. Qed.

(** [d.name ?? d.id ?? String(d)] *)
Example database_label_falls_back :
  @database_label Scripted.stub (VObj [("name", VStr "main"); ("id", VStr "7")])
  = Ok (VStr "main")
  /\ @database_label Scripted.stub (VObj [("name", VNull); ("id", VStr "7")])
     = Ok (VStr "7")
  /\ @database_label Scripted.stub (VStr "main") = Ok (VStr "main")
  /\ @database_label Scripted.stub VNull
     = Throw (TypeError "Cannot read properties of null").
Proof. repeat split; reflexivity. Qed.

Section Disconnected.

Context {H : Host}.

(** C3. On a disconnected facade every read ([listTenants], [listDatabases],
    [listCollections], [listRecords], [getRecord], [queryCollection]) returns
    its empty or absent value without throwing, and every mutating method
    ([addRecord], [updateRecord], [deleteRecord], [createCollection],
    [deleteCollection], [renameCollection], [createTenant], [createDatabase],
    [deleteDatabase]) throws [Error('not connected')].  In both cases the
    state is the one the call started from: nothing was sent. *)
Theorem disconnected_policy (s : state) (t d : option string)
    (tn c n n' i : string) (limit offset : option float)
    (r : Partial.t) (q : QueryOpts) :
  connected (this s) = false ->
  (listTenants s = (Ok [], s)
   /\ listDatabases t s = (Ok [], s)
   /\ listCollections t d s = (Ok [], s)
   /\ listRecords t d c limit offset s = (Ok [], s)
   /\ getRecord t d c i s = (Ok None, s)
   /\ queryCollection t d c q s = (Ok (VArr []), s))
  /\ (addRecord t d c r s = (Throw (Error "not connected"), s)
      /\ updateRecord t d c r s = (Throw (Error "not connected"), s)
      /\ deleteRecord t d c i s = (Throw (Error "not connected"), s)
      /\ createCollection t d n s = (Throw (Error "not connected"), s)
      /\ deleteCollection t d n s = (Throw (Error "not connected"), s)
      /\ renameCollection t d n n' s = (Throw (Error "not connected"), s)
      /\ createTenant n s = (Throw (Error "not connected"), s)
      /\ createDatabase tn n s = (Throw (Error "not connected"), s)
      /\ deleteDatabase tn n s = (Throw (Error "not connected"), s)).
Proof.
  intros Hoff.
  split; repeat split;
    unfold listTenants, listDatabases, listCollections, listRecords, getRecord,
      queryCollection, addRecord, updateRecord, deleteRecord, createCollection,
      deleteCollection, renameCollection, createTenant, createDatabase,
      deleteDatabase;
    unfold_facade; rewrite Hoff; reflexivity.
Qed.

End Disconnected.

Section Adding.

Context {H : Host}.

Lemma embeddingToSend_supplied (r : Partial.t) (e : list float) :
  Partial.embedding r = Some e -> e <> [] -> embeddingToSend r = e.
Proof.
  unfold embeddingToSend. intros -> Hne. simpl.
  destruct e; [contradiction | reflexivity].
Qed.

Lemma embeddingToSend_placeholder (r : Partial.t) :
  Partial.embedding r = None \/ Partial.embedding r = Some [] ->
  embeddingToSend r = [0%float].
Proof.
  unfold embeddingToSend. intros [-> | ->]; reflexivity.
Qed.

Lemma embeddingToSend_non_empty (r : Partial.t) : embeddingToSend r <> [].
Proof.
  unfold embeddingToSend.
  destruct (Partial.embedding r) as [[|x e]|]; simpl; discriminate.
Qed.

(** [Object.keys(m || {})] cannot throw: a nullish [m] is falsy. *)
Lemma has_metadata_total (r : Partial.t) : exists b, has_metadata r = Ok b.
Proof.
  unfold has_metadata, or_else.
  destruct (Partial.metadata r) as [| |b|x|str|xs|fs]; simpl; eauto.
  - destruct b; simpl; eauto.
  - destruct (negb (falsy_number x)); simpl; eauto.
  - destruct (negb (str =? "")); simpl; eauto.
Qed.

(** What [col.add] receives: the argument object of [addRecord]. *)
Lemma addRecord_sent (t d : option string) (c : string) (r : Partial.t)
    (s s' : state) (res : result string) (col : Collection) (args : AddArgs)
    (o : option exn) :
  addRecord t d c r s = (res, s') ->
  In {| sent := Req_add col args; failure := o |} (issued s s') ->
  add_documents args = [str_or (Partial.document r) ""]
  /\ add_embeddings args = [embeddingToSend r]
  /\ (has_metadata r = Ok true /\ add_metadatas args = Some [Partial.metadata r]
      \/ has_metadata r = Ok false /\ add_metadatas args = None).
Proof.
  unfold addRecord. intros Hrun Hin.
  run_cases Hrun; which_exchange Hin; simpl; auto.
Qed.

(** A successful [addRecord] did send its [col.add]. *)
Lemma addRecord_ok_sent (t d : option string) (c : string) (r : Partial.t)
    (s s' : state) (i : string) :
  addRecord t d c r s = (Ok i, s') ->
  exists col args,
    In {| sent := Req_add col args; failure := None |} (issued s s').
Proof.
  unfold addRecord. intros Hrun.
  run_cases Hrun; do 2 eexists; simpl; eauto.
Qed.

(** C1. The embedding [addRecord] sends with [col.add] is
    [record.embedding] when that is a non-empty array and the one-element
    placeholder [[0.0]] otherwise; it is never empty; and a call that
    returns an id did send it. *)
Theorem addRecord_embedding_sent (t d : option string) (c : string)
    (r : Partial.t) (s s' : state) (res : result string) :
  addRecord t d c r s = (res, s') ->
  (forall col args o,
      In {| sent := Req_add col args; failure := o |} (issued s s') ->
      add_embeddings args = [embeddingToSend r])
  /\ (forall e, Partial.embedding r = Some e -> e <> [] -> embeddingToSend r = e)
  /\ (Partial.embedding r = None \/ Partial.embedding r = Some [] ->
      embeddingToSend r = [0%float])
  /\ embeddingToSend r <> []
  /\ (forall i, res = Ok i ->
      exists col args,
        In {| sent := Req_add col args; failure := None |} (issued s s')).
Proof.
  intros Hrun. repeat split.
  - intros col args o Hin.
    destruct (addRecord_sent _ _ _ _ _ _ _ _ _ _ Hrun Hin) as (_ & He & _).
    exact He.
  - apply embeddingToSend_supplied.
  - apply embeddingToSend_placeholder.
  - apply embeddingToSend_non_empty.
  - intros i ->. eapply addRecord_ok_sent; eauto.
Qed.

Lemma has_metadata_true (r : Partial.t) :
  has_metadata r = Ok true ->
  Partial.metadata r <> VUndefined /\ maps_a_key (Partial.metadata r).
Proof.
  unfold has_metadata, maps_a_key. intros Hm.
  destruct (is_undefined (Partial.metadata r)) eqn:Hu; [discriminate|].
  split; [intros E; rewrite E in Hu; discriminate|].
  destruct (Object_keys (or_else (Partial.metadata r) (VObj []))) as [[|k ks]|];
    try discriminate.
  eauto.
Qed.

Lemma has_metadata_false (r : Partial.t) :
  has_metadata r = Ok false ->
  ~ (Partial.metadata r <> VUndefined /\ maps_a_key (Partial.metadata r)).
Proof.
  unfold has_metadata, maps_a_key. intros Hm [Hpresent (k & ks & Hk)].
  rewrite Hk in Hm.
  destruct (Partial.metadata r); discriminate.
Qed.

(** C5. The argument of [col.add] carries [metadatas] exactly when
    [record.metadata] is present and maps at least one key; otherwise the
    field is left out, never sent as an empty mapping.  In particular a
    mapping is sent exactly when it is not empty, and an absent metadata is
    never sent. *)
Theorem addRecord_metadata_field (t d : option string) (c : string)
    (r : Partial.t) (s s' : state) (res : result string)
    (col : Collection) (args : AddArgs) (o : option exn) :
  addRecord t d c r s = (res, s') ->
  In {| sent := Req_add col args; failure := o |} (issued s s') ->
  (add_metadatas args = Some [Partial.metadata r]
   <-> Partial.metadata r <> VUndefined /\ maps_a_key (Partial.metadata r))
  /\ (add_metadatas args = None
      <-> ~ (Partial.metadata r <> VUndefined /\ maps_a_key (Partial.metadata r)))
  /\ (forall fields, Partial.metadata r = VObj fields ->
      (add_metadatas args = None <-> fields = []))
  /\ (Partial.metadata r = VUndefined -> add_metadatas args = None).
Proof.
  intros Hrun Hin.
  destruct (addRecord_sent _ _ _ _ _ _ _ _ _ _ Hrun Hin)
    as (_ & _ & [[Hm Ha] | [Hm Ha]]); rewrite Ha.
  - pose proof (has_metadata_true _ Hm) as Hyes.
    split; [split; [intros _; exact Hyes | reflexivity]|].
    split; [split; [discriminate | intros Hno; contradiction]|].
    split.
    + intros fields Hf. split; [discriminate|].
      intros ->. destruct Hyes as [_ (k & ks & Hk)].
      rewrite Hf in Hk. discriminate.
    + intros E. destruct Hyes as [Hp _]. contradiction.
  - pose proof (has_metadata_false _ Hm) as Hno.
    split; [split; [discriminate | intros Hyes; contradiction]|].
    split; [split; [intros _; exact Hno | reflexivity]|].
    split.
    + intros fields Hf. split; [|reflexivity].
      intros _. unfold has_metadata in Hm. rewrite Hf in Hm. simpl in Hm.
      destruct fields; [reflexivity | discriminate].
    + reflexivity.
Qed.

(** C10. The argument of [col.add] always carries [documents], with exactly
    one entry: [record.document] when it is a non-empty string, the empty
    string when the document is absent or empty.  It is there also when
    [metadatas] is left out. *)
Theorem addRecord_document_field (t d : option string) (c : string)
    (r : Partial.t) (s s' : state) (res : result string)
    (col : Collection) (args : AddArgs) (o : option exn) :
  addRecord t d c r s = (res, s') ->
  In {| sent := Req_add col args; failure := o |} (issued s s') ->
  (forall doc, Partial.document r = Some doc -> doc <> "" ->
               add_documents args = [doc])
  /\ (Partial.document r = None \/ Partial.document r = Some "" ->
      add_documents args = [""])
  /\ (add_metadatas args = None -> exists doc, add_documents args = [doc]).
Proof.
  intros Hrun Hin.
  destruct (addRecord_sent _ _ _ _ _ _ _ _ _ _ Hrun Hin) as (Hd & _ & _).
  rewrite Hd. repeat split.
  - intros doc -> Hne. simpl.
    destruct (doc =? "") eqn:E; [apply String.eqb_eq in E; contradiction|].
    reflexivity.
  - intros [-> | ->]; reflexivity.
  - eauto.
Qed.

End Adding.

(** *** Concrete runs of [addRecord] on the scripted host *)

(** [addRecord(undefined, undefined, 'docs', { document: 'hello' })] on a
    connected facade: the placeholder is what goes out. *)
Lemma addRecord_embedding_sent_witness :
  exists col args,
    In {| sent := @Req_add Scripted.stub col args; failure := None |}
       (issued Scripted.ready
          (snd (addRecord None None "docs" Scripted.hello
                  Scripted.ready)))
    /\ add_embeddings args = [[0%float]].
Proof.
  destruct (@addRecord_embedding_sent Scripted.stub None None "docs"
              Scripted.hello
              Scripted.ready _ _ eq_refl)
    as (Hsent & _ & _ & _ & Hok).
  destruct (Hok _ eq_refl) as (col & args & Hin).
  exists col, args. split; [exact Hin|].
  rewrite (Hsent _ _ _ Hin). reflexivity.
Defined.

(** The same call with a full record sends the mapping [{ lang: 'en' }]
    and the document. *)
Lemma addRecord_metadata_field_witness :
  In {| sent := @Req_add Scripted.stub "docs" Scripted.full_add;
        failure := None |}
     (issued Scripted.ready
        (snd (addRecord None None "docs" Scripted.full Scripted.ready)))
  /\ add_metadatas Scripted.full_add = Some [Partial.metadata Scripted.full].
Proof.
  assert (Hin : In {| sent := @Req_add Scripted.stub "docs" Scripted.full_add;
                      failure := None |}
                   (issued Scripted.ready
                      (snd (addRecord None None "docs" Scripted.full
                              Scripted.ready))))
    by (cbv; auto).
  split; [exact Hin|].
  apply (@addRecord_metadata_field Scripted.stub None None "docs"
           Scripted.full Scripted.ready _ _ "docs" Scripted.full_add None
           eq_refl Hin).
  split; [discriminate|]. exists "lang", []. reflexivity.
Defined.

Lemma addRecord_document_field_witness :
  In {| sent := @Req_add Scripted.stub "docs" Scripted.full_add;
        failure := None |}
     (issued Scripted.ready
        (snd (addRecord None None "docs" Scripted.full Scripted.ready)))
  /\ add_documents Scripted.full_add = ["hello"].
Proof.
  assert (Hin : In {| sent := @Req_add Scripted.stub "docs" Scripted.full_add;
                      failure := None |}
                   (issued Scripted.ready
                      (snd (addRecord None None "docs" Scripted.full
                              Scripted.ready))))
    by (cbv; auto).
  split; [exact Hin|].
  apply (@addRecord_document_field Scripted.stub None None "docs"
           Scripted.full Scripted.ready _ _ "docs" Scripted.full_add None
           eq_refl Hin).
  - reflexivity.
  - discriminate.
Defined.

(** A facade that never connected refuses an [addRecord] and lists no
    tenants, whatever the store would answer. *)
Lemma disconnected_policy_witness :
  @listTenants Scripted.stub (Scripted.start Scripted.offline Scripted.healthy)
  = (Ok [], Scripted.start Scripted.offline Scripted.healthy)
  /\ @addRecord Scripted.stub None None "docs" Scripted.hello
       (Scripted.start Scripted.offline Scripted.healthy)
     = (Throw (Error "not connected"),
        Scripted.start Scripted.offline Scripted.healthy).
Proof.
  destruct (@disconnected_policy Scripted.stub
              (Scripted.start Scripted.offline Scripted.healthy)
              None None "default_tenant" "docs" "papers" "articles" "r1"
              None None Scripted.hello
              {| queryTexts := Some ["hello"]; queryEmbeddings := None;
                 nResults := None |}
              eq_refl)
    as [(Htenants & _) (Hadd & _)].
  split; assumption.
Defined.

Section Connecting.

Context {H : Host}.

(** C8. [connect] never throws and always returns a boolean.  It returns
    [true] exactly when both session objects were built and the version
    check answered, and then the facade is connected and holds both
    sessions; on any failure it returns [false], the facade is disconnected
    and both session fields are cleared. *)
Theorem connect_returns_boolean (cfg : Config) (s : state) :
  exists (b : bool) (s' : state),
    connect cfg s = (Ok b, s')
    /\ (b = true ->
        connected (this s') = true
        /\ sdkClient (this s') <> None
        /\ adminClient (this s') <> None)
    /\ (b = false ->
        connected (this s') = false
        /\ sdkClient (this s') = None
        /\ adminClient (this s') = None)
    /\ (b = true <->
        exists cl ad v w,
          new_SDKChromaClient (sdkArgsFor (set_config cfg (this s)) None) = Ok cl
          /\ new_AdminClient (adminArgsOf cfg) = Ok ad
          /\ client_version cl (world s) = (Ok v, w)).
Proof.
  unfold connect. unfold_facade. cbn [this world wire config sdkClient set_config
    set_sdkClient set_adminClient set_connected].
  destruct (new_SDKChromaClient (sdkArgsFor (set_config cfg (this s)) None))
    as [cl|e] eqn:Hcl.
  2:{ exists false. eexists. split; [reflexivity|]. cbn.
      repeat split; try discriminate.
      intros (cl & ad & v & w & Hc & _). discriminate. }
  cbn [this world wire config sdkClient set_config set_sdkClient
         set_adminClient set_connected].
  destruct (new_AdminClient (adminArgsOf cfg)) as [ad|e] eqn:Had.
  2:{ exists false. eexists. split; [reflexivity|]. cbn.
      repeat split; try discriminate.
      intros (cl' & ad' & v & w & _ & Ha & _). discriminate. }
  unfold_facade.
  cbn [this world wire config sdkClient set_config set_sdkClient
         set_adminClient set_connected].
  destruct (client_version cl (world s)) as [[v|e] w] eqn:Hv.
  - exists true. eexists. split; [reflexivity|]. cbn.
    repeat split; try discriminate.
    intros _. exists cl, ad, v, w. auto.
  - exists false. eexists. split; [reflexivity|]. cbn.
    repeat split; try discriminate.
    intros (cl' & ad' & v & w' & Hc & _ & Hver).
    inversion Hc; subst cl'. rewrite Hv in Hver. discriminate.
Qed.

(** C9, as the code has it.  [connect] assigns [this.config] before it
    tries anything: after every call, failed or not, the stored
    configuration is the supplied one; a failed call moreover leaves the
    facade disconnected with both session fields cleared. *)
Theorem connect_stores_config (cfg : Config) (s : state) :
  config (this (snd (connect cfg s))) = cfg
  /\ (fst (connect cfg s) = Ok false ->
      connected (this (snd (connect cfg s))) = false
      /\ sdkClient (this (snd (connect cfg s))) = None
      /\ adminClient (this (snd (connect cfg s))) = None).
Proof.
  unfold connect. unfold_facade.
  cbn [this world wire config sdkClient set_config set_sdkClient
         set_adminClient set_connected].
  repeat (split_goal; unfold_facade;
          cbn [this world wire config sdkClient adminClient connected
                 set_config set_sdkClient set_adminClient set_connected
                 fst snd]);
    repeat split; auto; discriminate.
Qed.

End Connecting.

(** C9 as stated fails: a facade configured for [local_config] is asked to
    connect to [team_config] while the store is unreachable.  The call
    returns [false], and the stored configuration is the new one, so the
    tenant fallback of later calls changed from none to ['team-a']. *)
Lemma connect_failure_replaces_config :
  fst (@connect Scripted.stub Scripted.team_config
         (Scripted.start Scripted.offline Scripted.unreachable)) = Ok false
  /\ config (this (Scripted.start Scripted.offline Scripted.unreachable))
     = Scripted.local_config
  /\ config (this (snd (@connect Scripted.stub Scripted.team_config
                          (Scripted.start Scripted.offline
                             Scripted.unreachable))))
     = Scripted.team_config
  /\ tenant Scripted.local_config = None
  /\ tenant Scripted.team_config = Some "team-a".
Proof. repeat split. Qed.

Section Listing.

Context {H : Host}.

Lemma nth_or_default {A} (l : list A) (i : nat) (dflt : A) :
  nth i l dflt = match nth_error l i with Some x => x | None => dflt end.
Proof.
  revert i; induction l as [|a l IH]; intros [|i]; simpl; auto.
Qed.

Lemma zip_records_length (res : GetResult) :
  List.length (zip_records res) = List.length (arr_or_empty (res_ids res)).
Proof. unfold zip_records. rewrite length_map, length_seq. reflexivity. Qed.

Lemma zip_records_nth (res : GetResult) (i : nat) :
  i < List.length (arr_or_empty (res_ids res)) ->
  nth_error (zip_records res) i
  = Some (record_at (arr_or_empty (res_ids res))
            (arr_or_empty (res_documents res))
            (arr_or_empty (res_metadatas res))
            (arr_or_empty (res_embeddings res)) i).
Proof.
  intros Hi. unfold zip_records.
  rewrite nth_error_map.
  rewrite (nth_error_nth' _ 0) by (rewrite length_seq; exact Hi).
  rewrite seq_nth by exact Hi. reflexivity.
Qed.

(** C6. When the facade is connected and both [getCollection] and
    [col.get] answer, [listRecords] returns one record per id, and the
    [i]-th record has the [i]-th id, document, metadata and embedding of the
    answer; a [null] or missing entry at [i] gives an absent field. *)
Theorem listRecords_zips_positionally (t d : option string) (c : string)
    (limit offset : option float) (s : state)
    (cl : Client) (col : Collection) (w1 w2 : World) (res : GetResult) :
  connected (this s) = true ->
  new_SDKChromaClient (sdkArgsFor (this s) (Some (scope t d))) = Ok cl ->
  client_getCollection cl c (world s) = (Ok col, w1) ->
  col_get col
    {| get_ids := None;
       get_limit := Some (opt_coalesce limit 50%float);
       get_offset := Some (opt_coalesce offset 0%float);
       get_include := include_all |} w1 = (Ok res, w2) ->
  exists (out : list ChromaRecord) (s' : state),
    listRecords t d c limit offset s = (Ok out, s')
    /\ List.length out = List.length (arr_or_empty (res_ids res))
    /\ forall i, i < List.length (arr_or_empty (res_ids res)) ->
        exists rec,
          nth_error out i = Some rec
          /\ nth_error (arr_or_empty (res_ids res)) i = Some (id rec)
          /\ document rec
             = match nth_error (arr_or_empty (res_documents res)) i with
               | Some (Some doc) => Some doc
               | _ => None
               end
          /\ metadata rec
             = match nth_error (arr_or_empty (res_metadatas res)) i with
               | Some m => if nullish m then VUndefined else m
               | None => VUndefined
               end
          /\ embedding rec
             = match nth_error (arr_or_empty (res_embeddings res)) i with
               | Some (Some e) => Some e
               | _ => None
               end.
Proof.
  intros Hon Hcl Hcol Hget.
  unfold listRecords. unfold_facade.
  rewrite Hon. cbn [negb this world wire]. rewrite Hcl.
  cbn [this world wire]. rewrite Hcol.
  cbn [this world wire]. rewrite Hget.
  do 2 eexists. split; [reflexivity|].
  split; [apply zip_records_length|].
  intros i Hi. eexists. split; [apply zip_records_nth; exact Hi|].
  unfold record_at, at_index, meta_at, coalesce. cbn [id document metadata embedding].
  rewrite (nth_or_default _ i VUndefined).
  repeat split.
  - apply nth_error_nth'. exact Hi.
  - destruct (nth_error (arr_or_empty (res_documents res)) i) as [[?|]|]; reflexivity.
  - destruct (nth_error (arr_or_empty (res_metadatas res)) i); reflexivity.
  - destruct (nth_error (arr_or_empty (res_embeddings res)) i) as [[?|]|]; reflexivity.
Qed.

End Listing.

(** [listRecords(undefined, undefined, 'docs', 2, 0)] against the stocked
    store: two records, and the second one is B with no document. *)
Lemma listRecords_zips_positionally_witness :
  exists out s',
    @listRecords Scripted.stub None None "docs" (Some 2%float) (Some 0%float)
      (Scripted.start Scripted.online Scripted.stocked) = (Ok out, s')
    /\ List.length out = 2
    /\ exists rec,
        nth_error out 1 = Some rec /\ id rec = "B" /\ document rec = None.
Proof.
  destruct (@listRecords_zips_positionally Scripted.stub None None "docs"
              (Some 2%float) (Some 0%float)
              (Scripted.start Scripted.online Scripted.stocked)
              _ "docs" _ _ Scripted.two_rows
              eq_refl eq_refl eq_refl eq_refl)
    as (out & s' & Hrun & Hlen & Hnth).
  exists out, s'. split; [exact Hrun|]. split; [exact Hlen|].
  destruct (Hnth 1 (le_n 2)) as (rec & Hrec & Hid & Hdoc & _).
  exists rec. split; [exact Hrec|]. split; [|exact Hdoc].
  simpl in Hid. injection Hid as Hid. symmetry. exact Hid.
Defined.

Section Resolving.

Context {H : Host}.

Lemma strict_eq_true (o : option string) (x : string) :
  strict_eq o x = true <-> o = Some x.
Proof.
  destruct o as [y|]; simpl.
  - rewrite String.eqb_eq. split; [intros ->; reflexivity | congruence].
  - split; discriminate.
Qed.

Lemma matches_test (x : string) (item : Item.t) :
  strict_eq (Item.id item) x || strict_eq (Item.name item) x = true
  <-> matches x item.
Proof.
  unfold matches. rewrite orb_true_iff, !strict_eq_true. reflexivity.
Qed.

Lemma first_match_none (cols : list Item.t) (x : string) :
  (forall item, In item cols -> ~ matches x item) ->
  first_match cols x = None.
Proof.
  induction cols as [|item rest IH]; simpl; intros Hno; [reflexivity|].
  destruct (strict_eq (Item.id item) x || strict_eq (Item.name item) x) eqn:E.
  - apply matches_test in E. exfalso. apply (Hno item); auto.
  - apply IH. intros it Hin. apply Hno. auto.
Qed.

Lemma first_match_first (pre post : list Item.t) (item : Item.t) (x : string) :
  (forall it, In it pre -> ~ matches x it) ->
  matches x item ->
  first_match (pre ++ item :: post) x
  = Some (match Item.id item with
          | Some i => Some i
          | None => Item.name item
          end).
Proof.
  intros Hpre Hm. induction pre as [|p pre IH]; simpl.
  - apply matches_test in Hm. rewrite Hm. reflexivity.
  - destruct (strict_eq (Item.id p) x || strict_eq (Item.name p) x) eqn:E.
    + apply matches_test in E. exfalso. apply (Hpre p); simpl; auto.
    + apply IH. intros it Hin. apply Hpre. simpl; auto.
Qed.

(** C7, as the code has it.  [resolveCollectionId] returns the input
    unchanged when the facade is disconnected, when the lookup fails, and
    when no listed collection has the input as its id or name; otherwise it
    returns the id of the first listed collection whose id or name is the
    input (its name, which is then the input, if that item has no id).  So a
    name or an id that only one collection answers to resolves to that
    collection's id. *)
Theorem resolveCollectionId_first_match (t d : option string) (x : string)
    (s : state) :
  (connected (this s) = false ->
   resolveCollectionId t d x s = (Ok (Some x), s))
  /\ (forall res s',
        resolveCollectionId t d x s = (res, s') ->
        Exists failed (issued s s') -> res = Ok (Some x))
  /\ (forall e,
        connected (this s) = true ->
        new_SDKChromaClient (sdkArgsFor (this s) (Some (scope t d))) = Throw e ->
        resolveCollectionId t d x s = (Ok (Some x), s))
  /\ (forall cl cols w,
        connected (this s) = true ->
        new_SDKChromaClient (sdkArgsFor (this s) (Some (scope t d))) = Ok cl ->
        client_listCollections cl (world s) = (Ok cols, w) ->
        exists r s',
          resolveCollectionId t d x s = (Ok r, s')
          /\ ((forall item, In item cols -> ~ matches x item) -> r = Some x)
          /\ (forall pre item post,
                cols = pre ++ item :: post ->
                (forall it, In it pre -> ~ matches x it) ->
                matches x item ->
                r = match Item.id item with
                    | Some i => Some i
                    | None => Item.name item
                    end)).
Proof.
  split; [|split; [|split]].
  - intros Hoff. unfold resolveCollectionId. unfold_facade.
    rewrite Hoff. reflexivity.
  - intros res s' Hrun Hfail. unfold resolveCollectionId in Hrun.
    run_cases Hrun; try reflexivity;
      try (inversion Hfail; fail);
      try (inversion Hfail as [? ? Hx | ? ? Hx];
           [exfalso; apply Hx; reflexivity | inversion Hx]).
  - intros e Hon Hcl. unfold resolveCollectionId. unfold_facade.
    rewrite Hon. cbn [negb this world wire]. rewrite Hcl. reflexivity.
  - intros cl cols w Hon Hcl Hcols. unfold resolveCollectionId. unfold_facade.
    rewrite Hon. cbn [negb this world wire]. rewrite Hcl.
    cbn [this world wire]. rewrite Hcols. cbn [this world wire].
    destruct (first_match cols x) as [r|] eqn:Hfm.
    + do 2 eexists. split; [reflexivity|]. split.
      * intros Hno. rewrite (first_match_none cols x Hno) in Hfm. discriminate.
      * intros pre item post -> Hpre Hm.
        rewrite (first_match_first pre post item x Hpre Hm) in Hfm.
        congruence.
    + do 2 eexists. split; [reflexivity|]. split; [reflexivity|].
      intros pre item post -> Hpre Hm.
      rewrite (first_match_first pre post item x Hpre Hm) in Hfm. discriminate.
Qed.

End Resolving.

(** C7 as stated fails on a listing where a name of one collection is the
    id of another: ['b2'] is the id of the second collection, yet the
    first one, named ['b2'], is found first and its id ['a1'] comes back. *)
Lemma resolveCollectionId_known_id_not_returned :
  In {| Item.id := Some "b2"; Item.name := Some "reports"; Item.count := None |}
     Scripted.clashing
  /\ fst (@resolveCollectionId Scripted.stub None None "b2"
            (Scripted.start Scripted.online Scripted.ambiguous))
     = Ok (Some "a1")
  /\ Some "a1" <> Some "b2".
Proof.
  split; [simpl; auto|]. split; [reflexivity | discriminate].
Qed.

Section Updating.
Context {H : Host}.

Lemma getRecord_run (t d : option string) (c i : string) (s s' : state)
    (res : result (option ChromaRecord)) :
  getRecord t d c i s = (res, s') ->
  this s' = this s
  /\ exists new, wire s' = wire s ++ new /\ Forall (fun x => ~ is_update x) new.
Proof.
  unfold getRecord. intros Hrun. unfold_facade.
  repeat (split_in Hrun; try discriminate);
  inversion Hrun; subst; clear Hrun; cbn [this world wire].
  all: split; [reflexivity|].
  all: try (exists []; rewrite app_nil_r; split; [reflexivity | constructor]; fail).
  all: repeat rewrite <- app_assoc; eexists; split; [reflexivity|].
  all: repeat constructor; unfold is_update; simpl; auto.
Qed.

Lemma reusable_embedding_some (o : option ChromaRecord) (e : list float) :
  reusable_embedding o = Some e <->
  exists ex, o = Some ex /\ embedding ex = Some e /\ e <> [].
Proof.
  unfold reusable_embedding. split.
  - destruct o as [ex|]; [|discriminate].
    destruct (embedding ex) as [[|x xs]|] eqn:E; try discriminate.
    intros [= <-]. exists ex. repeat split; auto. discriminate.
  - intros (ex & -> & -> & Hne). destruct e; [contradiction | reflexivity].
Qed.

Lemma reuse_existing_run (t d : option string) (c i : string)
    (args : UpdateArgs) (s : state) :
  exists args' s' new,
    try_catch
      (bind (getRecord t d c i)
         (fun existing =>
            match reusable_embedding existing with
            | Some e => ret (set_embeddings e args)
            | None => ret args
            end))
      (fun _ => ret args) s = (Ok args', s')
    /\ this s' = this s
    /\ wire s' = wire s ++ new
    /\ Forall (fun x => ~ is_update x) new
    /\ upd_ids args' = upd_ids args
    /\ upd_documents args' = upd_documents args
    /\ upd_metadatas args' = upd_metadatas args
    /\ (forall ex e s2,
          getRecord t d c i s = (Ok (Some ex), s2) ->
          embedding ex = Some e -> e <> [] ->
          upd_embeddings args' = Some [e])
    /\ ((forall ex e,
           fst (getRecord t d c i s) = Ok (Some ex) ->
           embedding ex = Some e -> e = []) ->
        upd_embeddings args' = upd_embeddings args).
Proof.
  unfold try_catch, bind, ret.
  destruct (getRecord t d c i s) as [[o|err] s2] eqn:Hget;
    destruct (getRecord_run _ _ _ _ _ _ _ Hget) as (Hthis & new & Hwire & Hnew).
  - destruct (reusable_embedding o) as [e'|] eqn:Hre.
    + exists (set_embeddings e' args), s2, new. repeat split; auto.
      * intros ex e s2' [= -> _] Hex Hne.
        assert (Hsome : reusable_embedding (Some ex) = Some e)
          by (apply reusable_embedding_some; eauto).
        rewrite Hsome in Hre. injection Hre as <-. reflexivity.
      * intros Hall. apply reusable_embedding_some in Hre.
        destruct Hre as (ex & -> & Hex & Hne).
        exfalso. apply Hne.
        apply (Hall ex e'); [reflexivity | exact Hex].
    + exists args, s2, new. repeat split; auto.
      intros ex e s2' [= -> _] Hex Hne.
      assert (Hsome : reusable_embedding (Some ex) = Some e)
        by (apply reusable_embedding_some; eauto).
      rewrite Hsome in Hre. discriminate.
  - exists args, s2, new. repeat split; auto.
    intros ex e s2' Habs. discriminate.
Qed.

Lemma choose_embeddings_run (t d : option string) (c : string) (r : Partial.t)
    (args : UpdateArgs) (s : state) :
  exists args' s' new,
    choose_embeddings t d c r args s = (Ok args', s')
    /\ this s' = this s
    /\ wire s' = wire s ++ new
    /\ Forall (fun x => ~ is_update x) new
    /\ upd_ids args' = upd_ids args
    /\ upd_documents args' = upd_documents args
    /\ upd_metadatas args' = upd_metadatas args
    /\ (forall e, Partial.embedding r = Some e -> e <> [] ->
                  upd_embeddings args' = Some [e])
    /\ (forall i ex e s2,
          empty_or_absent (Partial.embedding r) ->
          Partial.id r = Some i -> i <> "" ->
          getRecord t d c i s = (Ok (Some ex), s2) ->
          embedding ex = Some e -> e <> [] ->
          upd_embeddings args' = Some [e])
    /\ (empty_or_absent (Partial.embedding r) ->
        (forall i ex e,
            Partial.id r = Some i -> i <> "" ->
            fst (getRecord t d c i s) = Ok (Some ex) ->
            embedding ex = Some e -> e = []) ->
        upd_embeddings args' = upd_embeddings args).
Proof.
  unfold choose_embeddings, empty_or_absent.
  destruct (Partial.embedding r) as [[|x e]|] eqn:Hemb.
  2:{ exists (set_embeddings (x :: e) args), s, [].
      cbn. rewrite app_nil_r. repeat split; auto.
      - intros e0 [= <-] _. reflexivity.
      - intros i ex e0 s2 [Habs|Habs]; discriminate.
      - intros [Habs|Habs]; discriminate. }
  all: cbn [Array_isArray andb arr_or_empty opt_coalesce non_empty
              List.length Nat.ltb Nat.leb].
  all: destruct (Partial.id r) as [i|] eqn:Hid;
    [destruct (i =? "") eqn:Hi|].
  all: try (exists args, s, []; unfold ret; rewrite app_nil_r;
            repeat split; auto;
            [ intros e0 [= <-] Hne; try contradiction; try discriminate
            | intros i0 ex e0 s2 _ [= <-] Hne; try discriminate;
              apply String.eqb_eq in Hi; contradiction ]; fail).
  all: destruct (reuse_existing_run t d c i args s)
         as (args' & s' & new & Hrun & Hthis & Hwire & Hnew & Hids & Hdocs
             & Hmetas & Hreuse & Hnone).
  all: exists args', s', new; repeat split; auto.
  all: try (intros e0 [= <-] Hne; try contradiction; discriminate).
  all: try (intros i0 ex e0 s2 _ [= <-] _; apply Hreuse).
  all: try (intros _ Hall; apply Hnone; intros ex e0; apply Hall;
            [reflexivity | intros ->; discriminate]).
Qed.

Lemma issued_after (s s2 : state) (w w1 : World) (x u : exchange)
    (new : list exchange) :
  wire s2 = wire (logged s w1 x) ++ new ->
  issued s {| this := this s2; world := w; wire := wire s2 ++ [u] |}
  = x :: new ++ [u].
Proof.
  intros Hw. unfold issued. cbn [wire]. rewrite Hw. cbn [logged wire].
  repeat rewrite <- app_assoc. rewrite skipn_past. reflexivity.
Qed.

(** C2. Once [updateRecord] holds the collection, exactly one [update]
    goes out, after the lookup (if any), and it carries the id, the document
    and the metadata as supplied.  Its embedding follows three tiers: the
    supplied embedding when that is a non-empty array; otherwise the
    embedding [getRecord] returns for [record.id] when that fetch yields a
    record with a non-empty embedding; otherwise no [embeddings] field at
    all.  A record without an id, or with an empty one, has nothing fetched
    and falls to the third tier. *)
Theorem updateRecord_embedding_tiers (t d : option string) (c : string)
    (r : Partial.t) (s : state) (cl : Client) (col : Collection) (w1 : World) :
  connected (this s) = true ->
  new_SDKChromaClient (sdkArgsFor (this s) (Some (scope t d))) = Ok cl ->
  client_getCollection cl c (world s) = (Ok col, w1) ->
  exists args o lookup,
    issued s (snd (updateRecord t d c r s))
    = {| sent := Req_getCollection cl c; failure := None |}
        :: lookup ++ [{| sent := Req_update col args; failure := o |}]
    /\ Forall (fun x => ~ is_update x) lookup
    /\ upd_ids args = [Partial.id r]
    /\ upd_documents args = option_map (fun doc => [doc]) (Partial.document r)
    /\ upd_metadatas args
       = (if is_undefined (Partial.metadata r) then None
          else Some [Partial.metadata r])
    /\ (forall e, Partial.embedding r = Some e -> e <> [] ->
                  upd_embeddings args = Some [e])
    /\ (forall i ex e s2,
          empty_or_absent (Partial.embedding r) ->
          Partial.id r = Some i -> i <> "" ->
          getRecord t d c i
            (logged s w1 {| sent := Req_getCollection cl c; failure := None |})
          = (Ok (Some ex), s2) ->
          embedding ex = Some e -> e <> [] ->
          upd_embeddings args = Some [e])
    /\ (empty_or_absent (Partial.embedding r) ->
        (forall i ex e,
            Partial.id r = Some i -> i <> "" ->
            fst (getRecord t d c i
                   (logged s w1
                      {| sent := Req_getCollection cl c; failure := None |}))
            = Ok (Some ex) ->
            embedding ex = Some e -> e = []) ->
        upd_embeddings args = None).
Proof.
  intros Hon Hcl Hcol.
  unfold updateRecord. unfold_facade.
  rewrite Hon. cbn [negb this world wire]. rewrite Hcl.
  cbn [this world wire]. rewrite Hcol. cbn [this world wire failure_of].
  fold (logged s w1 {| sent := Req_getCollection cl c; failure := None |}).
  match goal with
  | |- context [choose_embeddings t d c r ?a ?s1] =>
      destruct (choose_embeddings_run t d c r a s1)
        as (args & s2 & new & Hrun & Hthis & Hwire & Hnew & Hids & Hdocs
            & Hmetas & Hsup & Hreuse & Hnone)
  end.
  rewrite Hrun.
  destruct (col_update col args (world s2)) as [[u|err] w2] eqn:Hupd.
  - exists args, None, new. cbn [snd failure_of].
    rewrite (issued_after _ _ _ _ _ _ _ Hwire).
    repeat split; auto.
  - exists args, (Some err), new. cbn [snd failure_of].
    rewrite (issued_after _ _ _ _ _ _ _ Hwire).
    repeat split; auto.
Qed.
End Updating.

Section Failures.

Context {H : Host}.

Lemma listTenants_swallows :
  swallowed_into listTenants
    (fun s => [str_or (tenant (config (this s))) "default_tenant"]).
Proof.
  intros s res s' Hrun Hfail. unfold listTenants in Hrun.
  swallow_cases Hrun Hfail.
Qed.

Lemma listDatabases_swallows (t : option string) :
  swallowed_into (listDatabases t) (fun _ => []).
Proof.
  intros s res s' Hrun Hfail. unfold listDatabases in Hrun.
  swallow_cases Hrun Hfail.
Qed.

Lemma listCollections_swallows (t d : option string) :
  swallowed_into (listCollections t d) (fun _ => []).
Proof.
  intros s res s' Hrun Hfail. unfold listCollections in Hrun.
  swallow_cases Hrun Hfail.
Qed.

Lemma listRecords_swallows (t d : option string) (c : string)
    (limit offset : option float) :
  swallowed_into (listRecords t d c limit offset) (fun _ => []).
Proof.
  intros s res s' Hrun Hfail. unfold listRecords in Hrun.
  swallow_cases Hrun Hfail.
Qed.

Lemma getRecord_swallows (t d : option string) (c i : string) :
  swallowed_into (getRecord t d c i) (fun _ => None).
Proof.
  intros s res s' Hrun Hfail. unfold getRecord in Hrun.
  swallow_cases Hrun Hfail.
Qed.

Lemma queryCollection_swallows (t d : option string) (c : string)
    (q : QueryOpts) :
  swallowed_into (queryCollection t d c q) (fun _ => VArr []).
Proof.
  intros s res s' Hrun Hfail. unfold queryCollection in Hrun.
  swallow_cases Hrun Hfail.
Qed.

Lemma resolveCollectionId_swallows (t d : option string) (x : string) :
  swallowed_into (resolveCollectionId t d x) (fun _ => Some x).
Proof.
  intros s res s' Hrun Hfail. unfold resolveCollectionId in Hrun.
  swallow_cases Hrun Hfail.
Qed.

Lemma createCollection_propagates (t d : option string) (n : string) :
  propagated (createCollection t d n).
Proof.
  intros s res s' x e Hrun Hin Hf. unfold createCollection in Hrun.
  propagate_cases Hrun Hin Hf.
Qed.

Lemma deleteCollection_propagates (t d : option string) (n : string) :
  propagated (deleteCollection t d n).
Proof.
  intros s res s' x e Hrun Hin Hf. unfold deleteCollection in Hrun.
  propagate_cases Hrun Hin Hf.
Qed.

Lemma renameCollection_propagates (t d : option string) (n n' : string) :
  propagated (renameCollection t d n n').
Proof.
  intros s res s' x e Hrun Hin Hf. unfold renameCollection in Hrun.
  propagate_cases Hrun Hin Hf.
Qed.

Lemma addRecord_propagates (t d : option string) (c : string) (r : Partial.t) :
  propagated (addRecord t d c r).
Proof.
  intros s res s' x e Hrun Hin Hf. unfold addRecord in Hrun.
  propagate_cases Hrun Hin Hf.
Qed.

Lemma deleteRecord_propagates (t d : option string) (c i : string) :
  propagated (deleteRecord t d c i).
Proof.
  intros s res s' x e Hrun Hin Hf. unfold deleteRecord in Hrun.
  propagate_cases Hrun Hin Hf.
Qed.

Lemma createTenant_propagates (n : string) : propagated (createTenant n).
Proof.
  intros s res s' x e Hrun Hin Hf. unfold createTenant in Hrun.
  propagate_cases Hrun Hin Hf.
Qed.

Lemma createDatabase_propagates (tn n : string) :
  propagated (createDatabase tn n).
Proof.
  intros s res s' x e Hrun Hin Hf. unfold createDatabase in Hrun.
  propagate_cases Hrun Hin Hf.
Qed.

Lemma deleteDatabase_propagates (tn n : string) :
  propagated (deleteDatabase tn n).
Proof.
  intros s res s' x e Hrun Hin Hf. unfold deleteDatabase in Hrun.
  propagate_cases Hrun Hin Hf.
Qed.

(** [updateRecord] propagates what the store throws on its own two
    requests: the [getCollection] it opens with and the [update]. *)
Lemma updateRecord_propagates_own (t d : option string) (c : string)
    (r : Partial.t) (s s' : state) (res : result bool) (x : exchange)
    (e : exn) :
  updateRecord t d c r s = (res, s') ->
  failure x = Some e ->
  (exists rest, issued s s' = x :: rest) \/ (In x (issued s s') /\ is_update x) ->
  res = Throw e.
Proof.
  intros Hrun Hf Hown.
  unfold updateRecord, choose_embeddings, getRecord in Hrun.
  run_cases Hrun;
    (destruct Hown as [[rest Hhd] | [Hin Hupd]];
     [ simpl in Hhd; first [ discriminate Hhd | injection Hhd as <- _ ];
       simpl in Hf; congruence
     | simpl in Hin; repeat (destruct Hin as [Hin | Hin]);
       try contradiction; subst; simpl in Hf;
       try congruence; try (unfold is_update in Hupd; simpl in Hupd; contradiction) ]).
Qed.

(** A failure of the lookup inside [updateRecord] is swallowed: the update
    still goes out, without embeddings, and alone decides the outcome. *)
Lemma updateRecord_swallows_lookup (t d : option string) (c : string)
    (r : Partial.t) (s s' : state) (res : result bool)
    (first x : exchange) (rest : list exchange) (e : exn) :
  updateRecord t d c r s = (res, s') ->
  issued s s' = first :: rest ->
  In x rest -> ~ is_update x -> failure x = Some e ->
  exists col args o,
    In {| sent := Req_update col args; failure := o |} rest
    /\ upd_embeddings args = None
    /\ res = match o with
             | None => Ok true
             | Some e' => Throw e'
             end.
Proof.
  intros Hrun Hhd Hin Hnot Hf.
  unfold updateRecord, choose_embeddings, getRecord in Hrun.
  run_cases Hrun;
    simpl in Hhd; try discriminate Hhd; injection Hhd as <- <-;
    simpl in Hin; repeat (destruct Hin as [Hin | Hin]);
    try contradiction; subst; simpl in Hf; try discriminate Hf;
    try (exfalso; apply Hnot; exact I);
    do 3 eexists; (split; [simpl; eauto | split; reflexivity]).
Qed.

End Failures.

(** [updateRecord(undefined, undefined, 'docs', { id: 'A', document: 'new
    text' })] against the stocked store: the embedding [[0.5]] stored for A
    is sent back with the update. *)
Lemma updateRecord_embedding_tiers_witness :
  exists args o lookup,
    issued (Scripted.start Scripted.online Scripted.stocked)
      (snd (@updateRecord Scripted.stub None None "docs" Scripted.retitle
              (Scripted.start Scripted.online Scripted.stocked)))
    = {| sent := @Req_getCollection Scripted.stub
                   (sdkArgsFor Scripted.online (Some (scope None None))) "docs";
         failure := None |}
        :: lookup ++ [{| sent := @Req_update Scripted.stub "docs" args;
                          failure := o |}]
    /\ upd_embeddings args = Some [[0.5%float]]
    /\ upd_documents args = Some ["new text"].
Proof.
  destruct (@updateRecord_embedding_tiers Scripted.stub None None "docs"
              Scripted.retitle
              (Scripted.start Scripted.online Scripted.stocked)
              _ "docs" _ eq_refl eq_refl eq_refl)
    as (args & o & lookup & Hsent & _ & _ & Hdoc & _ & _ & Hreuse & _).
  exists args, o, lookup. split; [exact Hsent|]. split; [|exact Hdoc].
  eapply (Hreuse "A").
  - left. reflexivity.
  - reflexivity.
  - discriminate.
  - reflexivity.
  - reflexivity.
  - discriminate.
Defined.

(** C4, as the code has it.  When the store fails during a read, nothing is
    thrown: [listDatabases], [listCollections] and [listRecords] return the
    empty list, [getRecord] returns nothing, [queryCollection] returns the
    empty array, while [listTenants] returns the one-element fallback and
    [resolveCollectionId] returns its input.  When the store fails on a
    request of a mutating method, the method throws exactly what the store
    threw; in [updateRecord] this holds for its own two requests, and a
    failure of the lookup in between is swallowed: the update goes out
    without embeddings and decides the outcome. *)
Theorem failure_policy (H : Host) (t d : option string)
    (tn c n n' i : string) (limit offset : option float)
    (r : Partial.t) (q : QueryOpts) :
  (swallowed_into listTenants
     (fun s => [str_or (tenant (config (this s))) "default_tenant"])
   /\ swallowed_into (listDatabases t) (fun _ => [])
   /\ swallowed_into (listCollections t d) (fun _ => [])
   /\ swallowed_into (listRecords t d c limit offset) (fun _ => [])
   /\ swallowed_into (getRecord t d c i) (fun _ => None)
   /\ swallowed_into (queryCollection t d c q) (fun _ => VArr [])
   /\ swallowed_into (resolveCollectionId t d c) (fun _ => Some c))
  /\ (propagated (createCollection t d n)
      /\ propagated (deleteCollection t d n)
      /\ propagated (renameCollection t d n n')
      /\ propagated (addRecord t d c r)
      /\ propagated (deleteRecord t d c i)
      /\ propagated (createTenant n)
      /\ propagated (createDatabase tn n)
      /\ propagated (deleteDatabase tn n))
  /\ (forall s s' res x e,
        updateRecord t d c r s = (res, s') ->
        failure x = Some e ->
        (exists rest, issued s s' = x :: rest)
        \/ (In x (issued s s') /\ is_update x) ->
        res = Throw e)
  /\ (forall s s' res first x rest e,
        updateRecord t d c r s = (res, s') ->
        issued s s' = first :: rest ->
        In x rest -> ~ is_update x -> failure x = Some e ->
        exists col args o,
          In {| sent := Req_update col args; failure := o |} rest
          /\ upd_embeddings args = None
          /\ res = match o with
                   | None => Ok true
                   | Some e' => Throw e'
                   end).
Proof.
  split; [|split; [|split]].
  - repeat split.
    + apply listTenants_swallows.
    + apply listDatabases_swallows.
    + apply listCollections_swallows.
    + apply listRecords_swallows.
    + apply getRecord_swallows.
    + apply queryCollection_swallows.
    + apply resolveCollectionId_swallows.
  - repeat split.
    + apply createCollection_propagates.
    + apply deleteCollection_propagates.
    + apply renameCollection_propagates.
    + apply addRecord_propagates.
    + apply deleteRecord_propagates.
    + apply createTenant_propagates.
    + apply createDatabase_propagates.
    + apply deleteDatabase_propagates.
  - intros s s' res x e. apply updateRecord_propagates_own.
  - intros s s' res first x rest e. apply updateRecord_swallows_lookup.
Qed.

(** C4 as stated fails in three places.  With the store unreachable,
    [listTenants] answers [['default_tenant']] and [resolveCollectionId]
    answers its input: neither is empty or absent.  And when only the
    [get] of the lookup fails, [updateRecord] returns [true]: that failure
    is not propagated. *)
Lemma failures_neither_empty_nor_thrown :
  (Exists failed
     (issued (Scripted.start Scripted.online Scripted.unreachable)
        (snd (@listTenants Scripted.stub
                (Scripted.start Scripted.online Scripted.unreachable))))
   /\ fst (@listTenants Scripted.stub
             (Scripted.start Scripted.online Scripted.unreachable))
      = Ok ["default_tenant"])
  /\ (Exists failed
        (issued (Scripted.start Scripted.online Scripted.unreachable)
           (snd (@resolveCollectionId Scripted.stub None None "docs"
                   (Scripted.start Scripted.online Scripted.unreachable))))
      /\ fst (@resolveCollectionId Scripted.stub None None "docs"
                (Scripted.start Scripted.online Scripted.unreachable))
         = Ok (Some "docs"))
  /\ (Exists failed
        (issued (Scripted.start Scripted.online Scripted.flaky_reads)
           (snd (@updateRecord Scripted.stub None None "docs" Scripted.retitle
                   (Scripted.start Scripted.online Scripted.flaky_reads))))
      /\ fst (@updateRecord Scripted.stub None None "docs" Scripted.retitle
                (Scripted.start Scripted.online Scripted.flaky_reads))
         = Ok true).
Proof.
  repeat split.
  - apply Exists_cons_hd. discriminate.
  - apply Exists_cons_hd. discriminate.
  - do 2 apply Exists_cons_tl. apply Exists_cons_hd. discriminate.
Qed.

(** ** Further properties of the facade *)

Section Sessions.

Context {H : Host}.

Lemma str_or_non_empty (o : option string) (dflt : string) :
  dflt <> "" -> str_or o dflt <> "".
Proof.
  intros Hd. unfold str_or. destruct o as [x|]; [|exact Hd].
  destruct (x =? "") eqn:E; [exact Hd|].
  intros ->. discriminate.
Qed.

Lemma num_or_truthy (o : option float) (dflt : float) :
  falsy_number dflt = false -> falsy_number (num_or o dflt) = false.
Proof.
  intros Hd. unfold num_or. destruct o as [n|]; [|exact Hd].
  destruct (falsy_number n) eqn:E; [exact Hd | exact E].
Qed.

(** X20. Whatever the configuration, the arguments of a session name a
    non-empty host (['localhost'] when none is configured) and a port that is
    neither 0 nor NaN (8000 by default); a header is sent exactly when the
    API key is a non-empty string, and then it is the one
    ['x-chroma-token'] header carrying that key. *)
Theorem session_defaults (self : ChromaDbClient) (cfg : option Overrides.t) :
  Args.host (sdkArgsFor self cfg) <> ""
  /\ falsy_number (Args.port (sdkArgsFor self cfg)) = false
  /\ (host (config self) = None \/ host (config self) = Some "" ->
      Args.host (sdkArgsFor self None) = "localhost")
  /\ (port (config self) = None ->
      Args.port (sdkArgsFor self None) = 8000%float)
  /\ (forall k, apiKey (config self) = Some k -> k <> "" ->
      Args.headers (sdkArgsFor self None) = Some [("x-chroma-token", k)])
  /\ (apiKey (config self) = None \/ apiKey (config self) = Some "" ->
      Args.headers (sdkArgsFor self None) = None).
Proof.
  unfold sdkArgsFor; cbn [Args.host Args.port Args.headers].
  split; [apply str_or_non_empty; discriminate|].
  split; [apply num_or_truthy; reflexivity|].
  cbn [spread].
  split; [intros [-> | ->]; reflexivity|].
  split; [intros ->; reflexivity|].
  split.
  - intros k -> Hk. unfold token_header.
    destruct (k =? "") eqn:E; [apply String.eqb_eq in E; contradiction|].
    reflexivity.
  - intros [-> | ->]; reflexivity.
Qed.

End Sessions.

(** Splits a conjunction of statements, without entering them. *)
Ltac conjuncts := repeat match goal with |- _ /\ _ => split end.

Ltac pick_exchange Hin :=
  simpl in Hin;
  repeat (destruct Hin as [Hin | Hin]);
  try contradiction; subst.

Section Invariants.

Context {H : Host}.

(** X1. No method but [connect] assigns a field of the facade. *)
Theorem only_connect_changes_facade (t d : option string)
    (tn c n n' i : string) (limit offset : option float)
    (r : Partial.t) (q : QueryOpts) :
  keeps_facade isConnected
  /\ keeps_facade listTenants
  /\ keeps_facade (listDatabases t)
  /\ keeps_facade (listCollections t d)
  /\ keeps_facade (resolveCollectionId t d c)
  /\ keeps_facade (createCollection t d n)
  /\ keeps_facade (deleteCollection t d n)
  /\ keeps_facade (listRecords t d c limit offset)
  /\ keeps_facade (addRecord t d c r)
  /\ keeps_facade (getRecord t d c i)
  /\ keeps_facade (queryCollection t d c q)
  /\ keeps_facade (createTenant n)
  /\ keeps_facade (createDatabase tn n)
  /\ keeps_facade (deleteDatabase tn n)
  /\ keeps_facade (renameCollection t d n n')
  /\ keeps_facade (updateRecord t d c r)
  /\ keeps_facade (deleteRecord t d c i).
Proof.
  conjuncts; intros s res s' Hrun;
    unfold isConnected, listTenants, listDatabases, listCollections,
      resolveCollectionId, createCollection, deleteCollection, listRecords,
      addRecord, getRecord, queryCollection, createTenant, createDatabase,
      deleteDatabase, renameCollection, updateRecord, choose_embeddings,
      getRecord, deleteRecord in Hrun;
    run_cases Hrun; reflexivity.
Qed.


(** X2. The discovery reads return a value in every state: [listTenants],
    [listDatabases], [listCollections] and [resolveCollectionId] never
    throw.  [listRecords], [getRecord] and [queryCollection] build their
    session before the [try]: they throw only on a connected facade whose
    session constructor threw, they throw that very exception, and nothing
    was sent. *)
Theorem reads_throw_only_on_construction (t d : option string)
    (c i : string) (limit offset : option float) (q : QueryOpts) :
  never_throws isConnected
  /\ never_throws listTenants
  /\ never_throws (listDatabases t)
  /\ never_throws (listCollections t d)
  /\ never_throws (resolveCollectionId t d c)
  /\ throws_only_construction t d (listRecords t d c limit offset)
  /\ throws_only_construction t d (getRecord t d c i)
  /\ throws_only_construction t d (queryCollection t d c q).
Proof.
  conjuncts;
    try (intros s res s' Hrun;
         unfold isConnected, listTenants, listDatabases, listCollections,
           resolveCollectionId in Hrun;
         run_cases Hrun; eexists; reflexivity);
    intros s e s' Hrun;
    unfold listRecords, getRecord, queryCollection in Hrun;
    run_cases Hrun;
    repeat match goal with
           | Hn : negb _ = false |- _ => apply negb_false_iff in Hn
           end;
    repeat split; assumption.
Qed.

(** X3. A mutating method never returns [false]: it returns [true] or it
    throws. *)
Theorem writes_return_true_or_throw (t d : option string)
    (tn c n n' i : string) (r : Partial.t) :
  true_or_throws (createCollection t d n)
  /\ true_or_throws (deleteCollection t d n)
  /\ true_or_throws (renameCollection t d n n')
  /\ true_or_throws (updateRecord t d c r)
  /\ true_or_throws (deleteRecord t d c i)
  /\ true_or_throws (createTenant n)
  /\ true_or_throws (createDatabase tn n)
  /\ true_or_throws (deleteDatabase tn n).
Proof.
  conjuncts; intros s b s' Hrun;
    unfold createCollection, deleteCollection, renameCollection, updateRecord,
      choose_embeddings, getRecord, deleteRecord, createTenant, createDatabase,
      deleteDatabase in Hrun;
    run_cases Hrun; reflexivity.
Qed.

(** X4. A read sends only read requests: nothing a read method does can
    add, change or remove anything in the store. *)
Theorem reads_send_only_reads (t d : option string) (c i : string)
    (limit offset : option float) (q : QueryOpts) :
  sends_only reads_only isConnected
  /\ sends_only reads_only listTenants
  /\ sends_only reads_only (listDatabases t)
  /\ sends_only reads_only (listCollections t d)
  /\ sends_only reads_only (resolveCollectionId t d c)
  /\ sends_only reads_only (listRecords t d c limit offset)
  /\ sends_only reads_only (getRecord t d c i)
  /\ sends_only reads_only (queryCollection t d c q).
Proof.
  conjuncts; intros s res s' x Hrun Hin;
    unfold isConnected, listTenants, listDatabases, listCollections,
      resolveCollectionId, listRecords, getRecord, queryCollection in Hrun;
    run_cases Hrun; pick_exchange Hin; exact I.
Qed.

(** X5. Only [createCollection] and [addRecord] can bring a collection into
    being.  Every other method that is given a collection name reaches it
    with [getCollection]: none of them sends [createCollection] or
    [getOrCreateCollection]. *)
Theorem others_never_create_collection (t d : option string)
    (c n n' i : string) (limit offset : option float)
    (r : Partial.t) (q : QueryOpts) :
  sends_only (fun q => ~ may_create_collection q) (deleteCollection t d n)
  /\ sends_only (fun q => ~ may_create_collection q) (renameCollection t d n n')
  /\ sends_only (fun q => ~ may_create_collection q)
       (listRecords t d c limit offset)
  /\ sends_only (fun q => ~ may_create_collection q) (getRecord t d c i)
  /\ sends_only (fun q => ~ may_create_collection q) (queryCollection t d c q)
  /\ sends_only (fun q => ~ may_create_collection q) (updateRecord t d c r)
  /\ sends_only (fun q => ~ may_create_collection q) (deleteRecord t d c i).
Proof.
  conjuncts; intros s res s' x Hrun Hin;
    unfold deleteCollection, renameCollection, listRecords, updateRecord,
      choose_embeddings, getRecord, queryCollection, deleteRecord in Hrun;
    run_cases Hrun; pick_exchange Hin; simpl; tauto.
Qed.

(** X6. Every request a scoped method makes on a client goes to a client
    built for the tenant and database given as arguments: their values,
    also when undefined, replace the configured ones, while host, port, TLS
    flag and headers are those of the configuration. *)
Theorem scoped_requests_use_given_scope (t d : option string)
    (c n n' i : string) (limit offset : option float)
    (r : Partial.t) (q : QueryOpts) :
  (scoped_to t d (listCollections t d)
   /\ scoped_to t d (resolveCollectionId t d c)
   /\ scoped_to t d (createCollection t d n)
   /\ scoped_to t d (deleteCollection t d n)
   /\ scoped_to t d (renameCollection t d n n')
   /\ scoped_to t d (listRecords t d c limit offset)
   /\ scoped_to t d (getRecord t d c i)
   /\ scoped_to t d (queryCollection t d c q)
   /\ scoped_to t d (addRecord t d c r)
   /\ scoped_to t d (updateRecord t d c r)
   /\ scoped_to t d (deleteRecord t d c i))
  /\ (forall self,
        Args.tenant (sdkArgsFor self (Some (scope t d))) = t
        /\ Args.database (sdkArgsFor self (Some (scope t d))) = d
        /\ Args.host (sdkArgsFor self (Some (scope t d)))
           = str_or (host (config self)) "localhost"
        /\ Args.port (sdkArgsFor self (Some (scope t d)))
           = num_or (port (config self)) 8000%float
        /\ Args.ssl (sdkArgsFor self (Some (scope t d)))
           = not_not (ssl (config self))
        /\ Args.headers (sdkArgsFor self (Some (scope t d)))
           = token_header (apiKey (config self))).
Proof.
  split; [|intros self; repeat split].
  conjuncts; intros s res s' x cl Hrun Hin Hcl;
    unfold listCollections, resolveCollectionId, createCollection,
      deleteCollection, renameCollection, listRecords, queryCollection,
      addRecord, updateRecord, choose_embeddings, getRecord, deleteRecord
      in Hrun;
    run_cases Hrun; pick_exchange Hin; simpl in Hcl;
    try discriminate; injection Hcl as <-; congruence.
Qed.

End Invariants.

Section AfterConnect.

Context {H : Host}.

(** The three ways [connect] can go: both sessions built and the version
    check answered; a constructor threw; the version check threw. *)
Lemma connect_run (cfg : Config) (s : state) :
  (exists cl ad v w,
      new_SDKChromaClient (sdkArgsFor (set_config cfg (this s)) None) = Ok cl
      /\ new_AdminClient (adminArgsOf cfg) = Ok ad
      /\ client_version cl (world s) = (Ok v, w)
      /\ connect cfg s
         = (Ok true,
            {| this := {| connected := true; config := cfg;
                          sdkClient := Some cl; adminClient := Some ad |};
               world := w;
               wire := wire s ++ [{| sent := Req_version cl;
                                     failure := None |}] |}))
  \/ connect cfg s
     = (Ok false,
        {| this := refused cfg; world := world s; wire := wire s |})
  \/ (exists cl ad e w,
         new_SDKChromaClient (sdkArgsFor (set_config cfg (this s)) None) = Ok cl
         /\ new_AdminClient (adminArgsOf cfg) = Ok ad
         /\ client_version cl (world s) = (Throw e, w)
         /\ connect cfg s
            = (Ok false,
               {| this := refused cfg; world := w;
                  wire := wire s ++ [{| sent := Req_version cl;
                                        failure := Some e |}] |})).
Proof.
  unfold connect, refused. unfold_facade.
  cbn [this world wire config sdkClient set_config set_sdkClient
         set_adminClient set_connected].
  destruct (new_SDKChromaClient (sdkArgsFor (set_config cfg (this s)) None))
    as [cl|e] eqn:Hcl.
  2:{ right. left. reflexivity. }
  cbn [this world wire config sdkClient set_config set_sdkClient
         set_adminClient set_connected].
  destruct (new_AdminClient (adminArgsOf cfg)) as [ad|e] eqn:Had.
  2:{ right. left. reflexivity. }
  unfold_facade.
  cbn [this world wire config sdkClient set_config set_sdkClient
         set_adminClient set_connected].
  destruct (client_version cl (world s)) as [[v|e] w] eqn:Hv.
  - left. exists cl, ad, v, w. auto.
  - right. right. exists cl, ad, e, w. auto.
Qed.

(** X7. [connect] sends at most one request, the [version] check, and only
    once both sessions are built.  After it, [isConnected] answers what
    [connect] returned, sends nothing and changes nothing; and the facade
    holds both sessions whenever it says it is connected. *)
Theorem connect_then_isConnected (cfg : Config) (s : state) :
  ((issued s (snd (connect cfg s)) = [] /\ fst (connect cfg s) = Ok false)
   \/ exists cl ad o,
       issued s (snd (connect cfg s))
       = [{| sent := Req_version cl; failure := o |}]
       /\ new_SDKChromaClient (sdkArgsFor (set_config cfg (this s)) None)
          = Ok cl
       /\ new_AdminClient (adminArgsOf cfg) = Ok ad
       /\ fst (connect cfg s)
          = Ok (match o with None => true | Some _ => false end))
  /\ isConnected (snd (connect cfg s))
     = (fst (connect cfg s), snd (connect cfg s))
  /\ sessions_held (this (snd (connect cfg s))).
Proof.
  destruct (connect_run cfg s)
    as [(cl & ad & v & w & Hcl & Had & Hv & Hrun)
       | [Hrun | (cl & ad & e & w & Hcl & Had & Hv & Hrun)]];
    rewrite Hrun; cbn [fst snd]; (split; [|split]);
    try reflexivity.
  - right. exists cl, ad, None. rewrite issued_app. auto.
  - intros _. cbn. split; discriminate.
  - left. rewrite issued_same_wire. auto.
  - intros Hon. discriminate.
  - right. exists cl, ad, (Some e). rewrite issued_app. auto.
  - intros Hon. discriminate.
Qed.

(** X8. Once [connect] returned [true], the administrative methods reach
    the store: [createTenant], [createDatabase], [deleteDatabase] and
    [listDatabases] each send exactly one request, on the admin session
    [connect] built; none of them answers "not connected". *)
Theorem admin_ready_after_connect (cfg : Config) (s : state)
    (tn n : string) (t : option string) :
  fst (connect cfg s) = Ok true ->
  exists ad,
    new_AdminClient (adminArgsOf cfg) = Ok ad
    /\ adminClient (this (snd (connect cfg s))) = Some ad
    /\ (exists o,
          issued (snd (connect cfg s))
            (snd (createTenant n (snd (connect cfg s))))
          = [{| sent := Req_createTenant ad n; failure := o |}])
    /\ (exists o,
          issued (snd (connect cfg s))
            (snd (createDatabase tn n (snd (connect cfg s))))
          = [{| sent := Req_createDatabase ad tn n; failure := o |}])
    /\ (exists o,
          issued (snd (connect cfg s))
            (snd (deleteDatabase tn n (snd (connect cfg s))))
          = [{| sent := Req_deleteDatabase ad tn n; failure := o |}])
    /\ (exists o,
          issued (snd (connect cfg s))
            (snd (listDatabases t (snd (connect cfg s))))
          = [{| sent := Req_listDatabases ad
                          (str_or t (str_or (tenant cfg) "default_tenant"));
                failure := o |}]).
Proof.
  intros Hok.
  destruct (connect_run cfg s)
    as [(cl & ad & v & w & Hcl & Had & Hv & Hrun)
       | [Hrun | (cl & ad & e & w & Hcl & Had & Hv & Hrun)]];
    rewrite Hrun in *; cbn [fst snd] in *; try discriminate.
  exists ad. split; [exact Had|]. split; [reflexivity|].
  unfold createTenant, createDatabase, deleteDatabase, listDatabases.
  unfold_facade. cbn [this world wire connected adminClient config].
  repeat split.
  - destruct (admin_createTenant ad n w) as [[u|e] w']; eexists;
      cbn [snd this world wire]; rewrite issued_app; reflexivity.
  - destruct (admin_createDatabase ad tn n w) as [[u|e] w']; eexists;
      cbn [snd this world wire]; rewrite issued_app; reflexivity.
  - destruct (admin_deleteDatabase ad tn n w) as [[u|e] w']; eexists;
      cbn [snd this world wire]; rewrite issued_app; reflexivity.
  - destruct (admin_listDatabases ad
                (str_or t (str_or (tenant cfg) "default_tenant")) w)
      as [[dbs|e] w']; [|eexists; cbn [snd this world wire];
                         rewrite issued_app; reflexivity].
    destruct dbs; unfold_facade; cbn [snd this world wire];
      try (eexists; rewrite issued_app; reflexivity).
    destruct (mapM database_label xs); eexists; cbn [snd this world wire];
      rewrite issued_app; reflexivity.
Qed.

(** X9. Once [connect] returned [false], the facade refuses everything until
    the next [connect]: the reads return their empty value, the mutating
    methods throw ['not connected'], and nothing is sent. *)
Theorem refused_after_failed_connect (cfg : Config) (s : state)
    (t d : option string) (c n i : string) (limit offset : option float)
    (r : Partial.t) (q : QueryOpts) :
  fst (connect cfg s) = Ok false ->
  isConnected (snd (connect cfg s)) = (Ok false, snd (connect cfg s))
  /\ listTenants (snd (connect cfg s)) = (Ok [], snd (connect cfg s))
  /\ listDatabases t (snd (connect cfg s)) = (Ok [], snd (connect cfg s))
  /\ listCollections t d (snd (connect cfg s)) = (Ok [], snd (connect cfg s))
  /\ listRecords t d c limit offset (snd (connect cfg s))
     = (Ok [], snd (connect cfg s))
  /\ getRecord t d c i (snd (connect cfg s)) = (Ok None, snd (connect cfg s))
  /\ queryCollection t d c q (snd (connect cfg s))
     = (Ok (VArr []), snd (connect cfg s))
  /\ addRecord t d c r (snd (connect cfg s))
     = (Throw not_connected, snd (connect cfg s))
  /\ updateRecord t d c r (snd (connect cfg s))
     = (Throw not_connected, snd (connect cfg s))
  /\ deleteRecord t d c i (snd (connect cfg s))
     = (Throw not_connected, snd (connect cfg s))
  /\ createCollection t d n (snd (connect cfg s))
     = (Throw not_connected, snd (connect cfg s))
  /\ createTenant n (snd (connect cfg s))
     = (Throw not_connected, snd (connect cfg s)).
Proof.
  intros Hno.
  assert (Hoff : connected (this (snd (connect cfg s))) = false).
  { destruct (connect_run cfg s)
      as [(cl & ad & v & w & Hcl & Had & Hv & Hrun)
         | [Hrun | (cl & ad & e & w & Hcl & Had & Hv & Hrun)]];
      rewrite Hrun in *; cbn [fst snd] in *; try discriminate; reflexivity. }
  generalize dependent (snd (connect cfg s)). intros s' Hoff.
  conjuncts;
    unfold isConnected, listTenants, listDatabases, listCollections,
      listRecords, getRecord, queryCollection, addRecord, updateRecord,
      deleteRecord, createCollection, createTenant;
    unfold_facade; rewrite Hoff; reflexivity.
Qed.

End AfterConnect.

Section Discovery.

Context {H : Host}.

(** X10. [listTenants] never lists more than one tenant and never an empty
    name: disconnected it returns the empty list, connected it returns
    exactly one non-empty name, whatever the store answers.  That name is
    the store's when it gives a non-empty one, else the configured tenant,
    else ['default_tenant']. *)
Theorem listTenants_single_name (s : state) :
  exists names s',
    listTenants s = (Ok names, s')
    /\ (connected (this s) = false -> names = [])
    /\ (connected (this s) = true ->
        exists name, names = [name] /\ name <> "")
    /\ (forall sdk identity w mine,
          connected (this s) = true ->
          sdkClient (this s) = Some sdk ->
          client_getUserIdentity sdk (world s) = (Ok identity, w) ->
          identity_tenant identity = Some mine -> mine <> "" ->
          names = [mine])
    /\ (forall sdk identity w,
          connected (this s) = true ->
          sdkClient (this s) = Some sdk ->
          client_getUserIdentity sdk (world s) = (Ok identity, w) ->
          identity_tenant identity = None
          \/ identity_tenant identity = Some "" ->
          names = [str_or (tenant (config (this s))) "default_tenant"]).
Proof.
  unfold listTenants. unfold_facade.
  destruct (connected (this s)) eqn:Hon; cbn [negb].
  2:{ do 2 eexists. split; [reflexivity|].
      repeat split; try discriminate; auto. }
  destruct (sdkClient (this s)) as [sdk|] eqn:Hsdk; unfold_facade.
  2:{ do 2 eexists. split; [reflexivity|].
      split; [discriminate|]. split.
      - intros _. eexists. split; [reflexivity|].
        apply str_or_non_empty. discriminate.
      - split; intros; discriminate. }
  destruct (client_getUserIdentity sdk (world s)) as [[identity|e] w] eqn:Hid;
    cbn [this world wire].
  - do 2 eexists. split; [reflexivity|].
    split; [discriminate|]. split; [|split].
    + intros _. eexists. split; [reflexivity|].
      apply str_or_non_empty. apply str_or_non_empty. discriminate.
    + intros sdk' identity' w' mine _ [= <-] Hid' Hm Hne.
      rewrite Hid in Hid'. injection Hid' as <- <-.
      rewrite Hm. simpl.
      destruct (mine =? "") eqn:E; [apply String.eqb_eq in E; contradiction|].
      reflexivity.
    + intros sdk' identity' w' _ [= <-] Hid' Hm.
      rewrite Hid in Hid'. injection Hid' as <- <-.
      destruct Hm as [-> | ->]; reflexivity.
  - do 2 eexists. split; [reflexivity|].
    split; [discriminate|]. split; [|split].
    + intros _. eexists. split; [reflexivity|].
      apply str_or_non_empty. discriminate.
    + intros sdk' identity' w' mine _ [= <-] Hid'.
      rewrite Hid in Hid'. discriminate.
    + intros sdk' identity' w' _ [= <-] Hid'.
      rewrite Hid in Hid'. discriminate.
Qed.

Lemma mapM_ok {A B} (f : A -> result B) (xs : list A) (ys : list B) :
  mapM f xs = Ok ys <-> Forall2 (fun x y => f x = Ok y) xs ys.
Proof.
  revert ys; induction xs as [|x xs IH]; intros ys; simpl.
  - split.
    + intros [= <-]. constructor.
    + intros Hall. inversion Hall. reflexivity.
  - destruct (f x) as [y|e] eqn:Hfx.
    + destruct (mapM f xs) as [ys'|e] eqn:Hrest.
      * split.
        -- intros [= <-]. constructor; [exact Hfx | apply IH; reflexivity].
        -- intros Hall. inversion Hall as [|? y' ? ys'' Hy Hys]; subst.
           apply IH in Hys. congruence.
      * split; [discriminate|].
        intros Hall. inversion Hall as [|? y' ? ys'' Hy Hys]; subst.
        apply IH in Hys. discriminate.
    + split; [discriminate|].
      intros Hall. inversion Hall as [|? y' ? ys'' Hy Hys]; subst. congruence.
Qed.

Lemma mapM_throws {A B} (f : A -> result B) (xs : list A) :
  (exists x e, In x xs /\ f x = Throw e) -> exists e, mapM f xs = Throw e.
Proof.
  intros (x & e & Hin & Hfx).
  induction xs as [|a xs IH]; [contradiction|]. simpl.
  destruct (f a) as [y|e'] eqn:Hfa; [|eauto].
  destruct Hin as [-> | Hin]; [congruence|].
  destruct (IH Hin) as [e'' ->]. eauto.
Qed.

Lemma database_label_throws (d : value) :
  nullish d = true -> exists e, database_label d = Throw e.
Proof.
  destruct d; try discriminate; intros _; unfold database_label; simpl; eauto.
Qed.

Lemma database_label_ok (d : value) :
  nullish d = false ->
  exists n i,
    get_prop d "name" = Ok n /\ get_prop d "id" = Ok i
    /\ database_label d
       = Ok (if nullish n then if nullish i then VStr (String_ d) else i
             else n).
Proof.
  destruct d; try discriminate; intros _; unfold database_label; simpl;
    try (do 2 eexists; repeat split; reflexivity).
  do 2 eexists. split; [reflexivity|]. split; [reflexivity|].
  destruct (nullish (lookup_field "name" fields)); [|reflexivity].
  destruct (nullish (lookup_field "id" fields)); reflexivity.
Qed.

(** X11. [listDatabases] asks for a tenant whose name is never empty: the
    argument when it is a non-empty string, else the configured tenant,
    else ['default_tenant'].  When the store answers with an array of
    entries none of which is [null] or [undefined], the result has one
    label per entry, in order: the entry's [name], else its [id], else
    [String(entry)].  A single [null] or [undefined] entry empties the whole
    listing, and so does an answer that is not an array. *)
Theorem listDatabases_labels (t : option string) (s : state) (admin : Admin)
    (dbs : value) (w : World) :
  connected (this s) = true ->
  adminClient (this s) = Some admin ->
  admin_listDatabases admin
    (str_or t (str_or (tenant (config (this s))) "default_tenant"))
    (world s) = (Ok dbs, w) ->
  str_or t (str_or (tenant (config (this s))) "default_tenant") <> ""
  /\ exists labels s',
      listDatabases t s = (Ok labels, s')
      /\ (forall ds, dbs = VArr ds ->
                     Forall (fun d => nullish d = false) ds ->
                     Forall2
                       (fun d label =>
                          exists n i,
                            get_prop d "name" = Ok n /\ get_prop d "id" = Ok i
                            /\ label
                               = if nullish n
                                 then if nullish i then VStr (String_ d) else i
                                 else n)
                       ds labels)
      /\ (forall ds, dbs = VArr ds ->
                     Exists (fun d => nullish d = true) ds -> labels = [])
      /\ ((forall ds, dbs <> VArr ds) -> labels = []).
Proof.
  intros Hon Had Hdbs.
  split; [apply str_or_non_empty; apply str_or_non_empty; discriminate|].
  unfold listDatabases. unfold_facade. rewrite Hon, Had.
  cbn [this world wire]. rewrite Hdbs.
  destruct dbs as [| | | | |ds|]; unfold_facade;
    try (do 2 eexists; split; [reflexivity|];
         repeat split; try discriminate; auto; fail).
  destruct (mapM database_label ds) as [labels|e] eqn:Hmap;
    do 2 eexists; (split; [reflexivity|]); split; [|split| |split].
  - intros ds' [= <-] Hall. apply mapM_ok in Hmap.
    clear - Hmap Hall. induction Hmap as [|d label ds labels Hd Hrest IH];
      [constructor|].
    inversion Hall as [|? ? Hnn Hall']; subst. constructor; [|auto].
    destruct (database_label_ok d Hnn) as (n & i & Hn & Hi & Hlabel).
    exists n, i. repeat split; auto. congruence.
  - intros ds' [= <-] Hex. apply Exists_exists in Hex as (d & Hin & Hnull).
    destruct (database_label_throws d Hnull) as [e He].
    destruct (mapM_throws database_label ds) as [e' He']; [eauto|].
    congruence.
  - intros Hnot. exfalso. apply (Hnot ds). reflexivity.
  - intros ds' [= <-] Hall. exfalso.
    assert (Hok : exists labels, mapM database_label ds = Ok labels).
    { clear - Hall. induction Hall as [|d ds Hd Hall IH]; simpl; [eauto|].
      destruct (database_label_ok d Hd) as (n & i & _ & _ & ->).
      destruct IH as [labels ->]. eauto. }
    destruct Hok as [labels Hok]. congruence.
  - reflexivity.
  - reflexivity.
Qed.

(** X12. When the store lists its collections, [listCollections] returns one
    reference per item, in order.  Each reference has its id and its name
    either both present or both absent: a missing id is filled with the
    name and a missing name with the id; present values are kept; a missing
    count becomes 0. *)
Theorem listCollections_references (t d : option string) (s : state)
    (cl : Client) (cols : list Item.t) (w : World) :
  connected (this s) = true ->
  new_SDKChromaClient (sdkArgsFor (this s) (Some (scope t d))) = Ok cl ->
  client_listCollections cl (world s) = (Ok cols, w) ->
  exists refs s',
    listCollections t d s = (Ok refs, s')
    /\ Forall2
         (fun item ref =>
            (CollectionRef.id ref = None <-> CollectionRef.name ref = None)
            /\ (forall i, Item.id item = Some i ->
                          CollectionRef.id ref = Some i)
            /\ (forall n, Item.name item = Some n ->
                          CollectionRef.name ref = Some n)
            /\ (Item.id item = None ->
                CollectionRef.id ref = Item.name item)
            /\ (Item.name item = None ->
                CollectionRef.name ref = Item.id item)
            /\ CollectionRef.count ref
               = match Item.count item with
                 | Some k => k
                 | None => 0%float
                 end)
         cols refs.
Proof.
  intros Hon Hcl Hcols. unfold listCollections. unfold_facade.
  rewrite Hon. cbn [negb this world wire]. rewrite Hcl.
  cbn [this world wire]. rewrite Hcols.
  do 2 eexists. split; [reflexivity|].
  clear. induction cols as [|item cols IH]; simpl; constructor; [|exact IH].
  destruct item as [[i|] [n|] k]; cbn; repeat split;
    intros; try discriminate; try congruence.
Qed.

End Discovery.

Section Records.

Context {H : Host}.

(** X13. [addRecord] sends at most two requests, in this order:
    [getOrCreateCollection] for the named collection, then [add] on the
    collection that call returned; no [add] goes out when the first one
    failed.  The [add] carries exactly one id, which is never empty: the
    record's id when that is a non-empty string, otherwise a generated one
    starting with ['id_'].  The id returned is the id sent. *)
Theorem addRecord_ensures_then_adds (t d : option string) (c : string)
    (r : Partial.t) (s s' : state) (res : result string) :
  addRecord t d c r s = (res, s') ->
  (issued s s' = [] /\ (forall i, res <> Ok i))
  \/ (exists cl e,
         issued s s'
         = [{| sent := Req_getOrCreateCollection cl c; failure := Some e |}]
         /\ res = Throw e)
  \/ (exists cl col w w' args o i,
         issued s s'
         = [{| sent := Req_getOrCreateCollection cl c; failure := None |};
            {| sent := Req_add col args; failure := o |}]
         /\ client_getOrCreateCollection cl c w = (Ok col, w')
         /\ add_ids args = [i]
         /\ i <> ""
         /\ (forall given, Partial.id r = Some given -> given <> "" ->
                           i = given)
         /\ (Partial.id r = None \/ Partial.id r = Some "" ->
             exists rest, i = ("id_" ++ rest)%string)
         /\ res = match o with
                  | None => Ok i
                  | Some e => Throw e
                  end).
Proof.
  intros Hrun. destruct (has_metadata_total r) as [b Hb].
  unfold addRecord in Hrun. rewrite Hb in Hrun.
  run_cases Hrun;
    repeat match goal with
           | Hz : (_ =? "") = true |- _ => apply String.eqb_eq in Hz; subst
           | Hz : (_ =? "") = false |- _ => apply String.eqb_neq in Hz
           end;
    first
      [ left; split; [reflexivity | intros ? ?; discriminate]
      | right; left; do 2 eexists; split; reflexivity
      | right; right; do 7 eexists;
        (split; [reflexivity|]);
        (split; [eassumption|]);
        (split; [reflexivity|]);
        repeat split; intros;
        repeat match goal with
               | Hor : _ \/ _ |- _ => destruct Hor
               end;
        try congruence; try reflexivity; try assumption;
        try (eexists; reflexivity) ].
Qed.


(** X14. [getRecord] asks the store for exactly the requested id, with
    documents, metadatas and embeddings included.  It returns nothing
    exactly when the answer has no ids; otherwise it returns one record,
    built from the first entry of each array of the answer: its id is the
    first id the store returned, whether or not it is the one asked for. *)
Theorem getRecord_first_entry (t d : option string) (c i : string)
    (s : state) (cl : Client) (col : Collection) (w1 w2 : World)
    (answer : GetResult) :
  connected (this s) = true ->
  new_SDKChromaClient (sdkArgsFor (this s) (Some (scope t d))) = Ok cl ->
  client_getCollection cl c (world s) = (Ok col, w1) ->
  col_get col
    {| get_ids := Some [i]; get_limit := None; get_offset := None;
       get_include := ["documents"; "metadatas"; "embeddings"] |} w1
  = (Ok answer, w2) ->
  exists found s',
    getRecord t d c i s = (Ok found, s')
    /\ issued s s'
       = [{| sent := Req_getCollection cl c; failure := None |};
          {| sent := Req_get col
                       {| get_ids := Some [i]; get_limit := None;
                          get_offset := None;
                          get_include :=
                            ["documents"; "metadatas"; "embeddings"] |};
             failure := None |}]
    /\ (found = None <->
        res_ids answer = None \/ res_ids answer = Some [])
    /\ (forall rec, found = Some rec ->
          hd_error (arr_or_empty (res_ids answer)) = Some (id rec)
          /\ document rec
             = match hd_error (arr_or_empty (res_documents answer)) with
               | Some (Some doc) => Some doc
               | _ => None
               end
          /\ metadata rec
             = match hd_error (arr_or_empty (res_metadatas answer)) with
               | Some m => m
               | None => VUndefined
               end
          /\ embedding rec
             = match hd_error (arr_or_empty (res_embeddings answer)) with
               | Some (Some e) => Some e
               | _ => None
               end).
Proof.
  intros Hon Hcl Hcol Hget. unfold getRecord. unfold_facade.
  rewrite Hon. cbn [negb this world wire]. rewrite Hcl.
  cbn [this world wire]. rewrite Hcol.
  cbn [this world wire include_all]. unfold include_all. rewrite Hget.
  destruct answer as [ids docs metas embs]. cbn [res_ids res_documents
    res_metadatas res_embeddings].
  destruct ids as [[|i0 ids]|]; cbn [arr_or_empty opt_coalesce];
    do 2 eexists; (split; [reflexivity|]);
    cbn [this world wire failure_of]; rewrite <- app_assoc, issued_app;
    (split; [reflexivity|]); split.
  - split; auto.
  - intros rec [=].
  - split; [discriminate | intros [E | E]; discriminate].
  - intros rec [= <-]. cbn [id document metadata embedding hd_error].
    unfold at_index, meta_at.
    repeat split.
    + destruct docs as [[|[doc|] docs]|]; reflexivity.
    + destruct metas as [[|m metas]|]; reflexivity.
    + destruct embs as [[|[e|] embs]|]; reflexivity.
  - split; auto.
  - intros rec [=].
Qed.

(** X15. [queryCollection] hands the caller's query texts and query
    embeddings to the store as they are, with the requested number of
    results or 5 when none is given (a requested 0 stays 0), and returns the
    store's answer unchanged. *)
Theorem queryCollection_passes_through (t d : option string) (c : string)
    (q : QueryOpts) (s : state) (cl : Client) (col : Collection)
    (w1 w2 : World) (answer : value) :
  connected (this s) = true ->
  new_SDKChromaClient (sdkArgsFor (this s) (Some (scope t d))) = Ok cl ->
  client_getCollection cl c (world s) = (Ok col, w1) ->
  col_query col
    {| q_queryTexts := queryTexts q;
       q_queryEmbeddings := queryEmbeddings q;
       q_nResults := match nResults q with
                     | Some k => k
                     | None => 5%float
                     end |} w1
  = (Ok answer, w2) ->
  exists s',
    queryCollection t d c q s = (Ok answer, s')
    /\ exists args,
        issued s s'
        = [{| sent := Req_getCollection cl c; failure := None |};
           {| sent := Req_query col args; failure := None |}]
        /\ q_queryTexts args = queryTexts q
        /\ q_queryEmbeddings args = queryEmbeddings q
        /\ (forall k, nResults q = Some k -> q_nResults args = k)
        /\ (nResults q = None -> q_nResults args = 5%float).
Proof.
  intros Hon Hcl Hcol Hq. unfold queryCollection. unfold_facade.
  rewrite Hon. cbn [negb this world wire]. rewrite Hcl.
  cbn [this world wire]. rewrite Hcol.
  cbn [this world wire]. unfold opt_coalesce. rewrite Hq.
  eexists. split; [reflexivity|].
  eexists. cbn [this world wire failure_of].
  rewrite <- app_assoc, issued_app.
  split; [reflexivity|]. cbn.
  repeat split.
  - intros k ->. reflexivity.
  - intros ->. reflexivity.
Qed.

(** X16. [updateRecord] looks the record up only when it has to: with a
    non-empty embedding supplied, or with no id or an empty one, it sends
    its [getCollection] and its [update] and nothing else.  When it does
    look up, it asks for exactly the record's id, in the collection of the
    same name. *)
Theorem updateRecord_lookup_only_when_needed (t d : option string)
    (c : string) (r : Partial.t) (s s' : state) (res : result bool) :
  updateRecord t d c r s = (res, s') ->
  ((exists e, Partial.embedding r = Some e /\ e <> [])
   \/ Partial.id r = None \/ Partial.id r = Some "" ->
   forall x, In x (issued s s') ->
             (exists cl, sent x = Req_getCollection cl c) \/ is_update x)
  /\ (forall x col args,
        In x (issued s s') -> sent x = Req_get col args ->
        exists i, Partial.id r = Some i /\ i <> ""
                  /\ get_ids args = Some [i]
                  /\ get_include args = ["documents"; "metadatas"; "embeddings"])
  /\ (forall x cl name,
        In x (issued s s') -> sent x = Req_getCollection cl name -> name = c)
  /\ List.length (issued s s') <= 4.
Proof.
  intros Hrun. unfold updateRecord, choose_embeddings, getRecord in Hrun.
  run_cases Hrun;
    repeat match goal with
           | Hz : (_ =? "") = true |- _ => apply String.eqb_eq in Hz; subst
           | Hz : (_ =? "") = false |- _ => apply String.eqb_neq in Hz
           end;
    (split; [|split; [|split]]);
    try (simpl; repeat constructor; fail);
    try (intros x cl name Hin Hx; pick_exchange Hin; simpl in Hx;
         congruence);
    try (intros x col args Hin Hx; pick_exchange Hin; simpl in Hx;
         try discriminate; injection Hx as <- <-;
         eexists; repeat split; auto; fail);
    try (intros _ x Hin; pick_exchange Hin; unfold is_update; simpl; eauto;
         fail).
  all: intros [(emb & Hemb & Hne) | [Hid | Hid]];
    try congruence;
    try (match goal with
         | Hz : Array_isArray _ && _ = false |- _ =>
             rewrite Hemb in Hz; destruct emb;
             [contradiction | discriminate Hz]
         end).
Qed.


(** X17. The mutating methods forward their arguments and nothing else: the
    only requests they send are the ones named here, with the caller's
    collection name, new name, record id, tenant and database unchanged. *)
Theorem writes_forward_arguments (t d : option string)
    (tn c n n' i : string) :
  sends_only (fun q => exists cl, q = Req_createCollection cl n)
    (createCollection t d n)
  /\ sends_only (fun q => exists cl, q = Req_deleteCollection cl n)
       (deleteCollection t d n)
  /\ sends_only (fun q => (exists cl, q = Req_getCollection cl n)
                          \/ exists col, q = Req_modify col n')
       (renameCollection t d n n')
  /\ sends_only (fun q => (exists cl, q = Req_getCollection cl c)
                          \/ exists col, q = Req_delete col [i])
       (deleteRecord t d c i)
  /\ sends_only (fun q => exists ad, q = Req_createTenant ad n)
       (createTenant n)
  /\ sends_only (fun q => exists ad, q = Req_createDatabase ad tn n)
       (createDatabase tn n)
  /\ sends_only (fun q => exists ad, q = Req_deleteDatabase ad tn n)
       (deleteDatabase tn n).
Proof.
  conjuncts; intros s res s' x Hrun Hin;
    unfold createCollection, deleteCollection, renameCollection, deleteRecord,
      createTenant, createDatabase, deleteDatabase in Hrun;
    run_cases Hrun; pick_exchange Hin; simpl; eauto.
Qed.

End Records.

Section TenantCommand.

Context {H : Host} {E : Editor}.

(** X18. When the input box is dismissed or left empty, the handler of
    ['chromadb.createTenant'] stops there: it returns normally, sends
    nothing to the store, shows no message and does not refresh. *)
Theorem createTenant_handler_without_name (u : session)
    (answer : option string) (w : World) :
  showInputBox "New tenant name" (world (backend u)) = (answer, w) ->
  answer = None \/ answer = Some "" ->
  createTenant_handler u
  = (Ok tt,
     {| backend := with_world w (backend u);
        screen := screen u ++ [Prompted "New tenant name"] |})
  /\ wire (backend (snd (createTenant_handler u))) = wire (backend u)
  /\ this (backend (snd (createTenant_handler u))) = this (backend u).
Proof.
  intros Hbox Hnone.
  assert (Hrun : createTenant_handler u
                 = (Ok tt,
                    {| backend := with_world w (backend u);
                       screen := screen u ++ [Prompted "New tenant name"] |})).
  { unfold createTenant_handler, cmd_bind, prompt_for, cmd_ret.
    rewrite Hbox. destruct Hnone as [-> | ->]; reflexivity. }
  rewrite Hrun. repeat split.
Qed.

(** X19. With a name typed in, the handler calls [createTenant] with it.  If
    that call throws (the facade is not connected, or the store refuses), the
    handler throws the same exception and shows nothing further: no success
    message, no refresh.  If it returns, the handler shows
    [Tenant '<name>' created] and then refreshes the tree, in this order,
    and sends nothing more to the store. *)
Theorem createTenant_handler_with_name (u : session) (n : string) (w : World) :
  showInputBox "New tenant name" (world (backend u)) = (Some n, w) ->
  n <> "" ->
  (forall e s2,
      createTenant n (with_world w (backend u)) = (Throw e, s2) ->
      createTenant_handler u
      = (Throw e,
         {| backend := s2;
            screen := screen u ++ [Prompted "New tenant name"] |}))
  /\ (forall b s2,
        createTenant n (with_world w (backend u)) = (Ok b, s2) ->
        fst (createTenant_handler u)
        = fst (provider_refresh
                 (showInformationMessage ("Tenant '" ++ n ++ "' created")
                    (world s2)))
        /\ screen (snd (createTenant_handler u))
           = screen u ++ [Prompted "New tenant name";
                          Informed ("Tenant '" ++ n ++ "' created");
                          Refreshed]
        /\ wire (backend (snd (createTenant_handler u))) = wire s2)
  /\ (connected (this (backend u)) = false ->
      fst (createTenant_handler u) = Throw (Error "not connected")
      /\ screen (snd (createTenant_handler u))
         = screen u ++ [Prompted "New tenant name"]
      /\ wire (backend (snd (createTenant_handler u))) = wire (backend u)).
Proof.
  intros Hbox Hne.
  assert (Hn : (n =? "") = false) by (apply String.eqb_neq; exact Hne).
  unfold createTenant_handler, cmd_bind, prompt_for, cmd_ret, on_client,
    inform, refresh.
  rewrite Hbox, Hn. cbn [backend screen].
  split; [|split].
  - intros e s2 Hrun. rewrite Hrun. reflexivity.
  - intros b s2 Hrun. rewrite Hrun. cbn [backend screen with_world world].
    destruct (provider_refresh
                (showInformationMessage ("Tenant '" ++ n ++ "' created")
                   (world s2))) as [r w'].
    cbn [fst snd backend screen with_world wire].
    split; [reflexivity|].
    split; [repeat rewrite <- app_assoc; reflexivity | reflexivity].
  - intros Hoff.
    assert (Hrun : createTenant n (with_world w (backend u))
                   = (Throw (Error "not connected"),
                      with_world w (backend u))).
    { unfold createTenant. unfold_facade. cbn [with_world this].
      rewrite Hoff. reflexivity. }
    rewrite Hrun. repeat split.
Qed.

End TenantCommand.

(** *** Concrete runs for the further properties *)

(** After [connect] against the healthy store, [createTenant('acme')] goes
    out on the admin session. *)
Lemma admin_ready_after_connect_witness :
  exists ad o,
    issued
      (snd (@connect Scripted.stub Scripted.local_config
              (Scripted.start new_ChromaDbClient Scripted.healthy)))
      (snd (createTenant "acme"
              (snd (@connect Scripted.stub Scripted.local_config
                      (Scripted.start new_ChromaDbClient Scripted.healthy)))))
    = [{| sent := Req_createTenant ad "acme"; failure := o |}].
Proof.
  destruct (@admin_ready_after_connect Scripted.stub Scripted.local_config
              (Scripted.start new_ChromaDbClient Scripted.healthy)
              "default_tenant" "acme" None eq_refl)
    as (ad & _ & _ & (o & Hsent) & _).
  exists ad, o. exact Hsent.
Defined.

(** After [connect] against the unreachable store, the facade lists no
    tenant and refuses an [addRecord]. *)
Lemma refused_after_failed_connect_witness :
  fst (listTenants
         (snd (@connect Scripted.stub Scripted.local_config
                 (Scripted.start new_ChromaDbClient Scripted.unreachable))))
  = Ok []
  /\ fst (addRecord None None "docs" Scripted.hello
            (snd (@connect Scripted.stub Scripted.local_config
                    (Scripted.start new_ChromaDbClient Scripted.unreachable))))
     = Throw (Error "not connected").
Proof.
  destruct (@refused_after_failed_connect Scripted.stub Scripted.local_config
              (Scripted.start new_ChromaDbClient Scripted.unreachable)
              None None "docs" "papers" "r1" None None Scripted.hello
              ask_hello eq_refl)
    as (_ & Htenants & _ & _ & _ & _ & _ & Hadd & _).
  rewrite Htenants, Hadd. split; reflexivity.
Defined.

(** Two databases come back as two labels. *)
Lemma listDatabases_labels_witness :
  exists labels s',
    @listDatabases Scripted.stub None
      (Scripted.start Scripted.online two_databases) = (Ok labels, s')
    /\ List.length labels = 2.
Proof.
  destruct (@listDatabases_labels Scripted.stub None
              (Scripted.start Scripted.online two_databases)
              _ _ _ eq_refl eq_refl eq_refl)
    as (_ & labels & s' & Hrun & Hall & _).
  exists labels, s'. split; [exact Hrun|].
  assert (Hds : Forall (fun d => nullish d = false)
                  [VObj [("name", VStr "main")]; VObj [("id", VStr "db-2")]])
    by (repeat constructor).
  rewrite <- (Forall2_length (Hall _ eq_refl Hds)). reflexivity.
Defined.

(** The two clashing collections come back as two references. *)
Lemma listCollections_references_witness :
  exists refs s',
    @listCollections Scripted.stub None None
      (Scripted.start Scripted.online Scripted.ambiguous) = (Ok refs, s')
    /\ List.length refs = 2.
Proof.
  destruct (@listCollections_references Scripted.stub None None
              (Scripted.start Scripted.online Scripted.ambiguous)
              _ _ _ eq_refl eq_refl eq_refl)
    as (refs & s' & Hrun & Hall).
  exists refs, s'. split; [exact Hrun|].
  rewrite <- (Forall2_length Hall). reflexivity.
Defined.

(** [addRecord] of [{ document: 'hello' }]: the collection is ensured, then
    one record with a non-empty id is added. *)
Lemma addRecord_ensures_then_adds_witness :
  exists cl col args o i,
    issued Scripted.ready
      (snd (@addRecord Scripted.stub None None "docs" Scripted.hello
              Scripted.ready))
    = [{| sent := Req_getOrCreateCollection cl "docs"; failure := None |};
       {| sent := Req_add col args; failure := o |}]
    /\ add_ids args = [i] /\ i <> "".
Proof.
  destruct (@addRecord_ensures_then_adds Scripted.stub None None "docs"
              Scripted.hello Scripted.ready _ _ eq_refl)
    as [[Hnone _]
       | [(cl & e & Hfail & _)
         | (cl & col & w & w' & args & o & i & Hsent & _ & Hid & Hne & _)]].
  - discriminate Hnone.
  - discriminate Hfail.
  - exists cl, col, args, o, i. auto.
Defined.

(** Asked for B, [getRecord] returns what the store put first: A. *)
Lemma getRecord_first_entry_witness :
  exists found s',
    @getRecord Scripted.stub None None "docs" "B"
      (Scripted.start Scripted.online Scripted.stocked) = (Ok found, s')
    /\ forall rec, found = Some rec -> id rec = "A".
Proof.
  destruct (@getRecord_first_entry Scripted.stub None None "docs" "B"
              (Scripted.start Scripted.online Scripted.stocked)
              _ "docs" _ _ Scripted.two_rows eq_refl eq_refl eq_refl eq_refl)
    as (found & s' & Hrun & _ & _ & Hrec).
  exists found, s'. split; [exact Hrun|].
  intros rec Hfound. destruct (Hrec rec Hfound) as (Hid & _).
  simpl in Hid. injection Hid as Hid. symmetry. exact Hid.
Defined.

(** The answer of the store is what [queryCollection] returns. *)
Lemma queryCollection_passes_through_witness :
  exists s',
    @queryCollection Scripted.stub None None "docs" ask_hello Scripted.ready
    = (Ok (VObj []), s').
Proof.
  destruct (@queryCollection_passes_through Scripted.stub None None "docs"
              ask_hello Scripted.ready _ "docs" _ _ (VObj [])
              eq_refl eq_refl eq_refl eq_refl)
    as (s' & Hrun & _).
  exists s'. exact Hrun.
Defined.

(** With an embedding supplied, [updateRecord] does not look the record
    up: two requests, none of them a [get]. *)
Lemma updateRecord_lookup_only_when_needed_witness :
  List.length
    (issued Scripted.ready
       (snd (@updateRecord Scripted.stub None None "docs" Scripted.full
               Scripted.ready))) <= 4
  /\ forall x,
      In x (issued Scripted.ready
              (snd (@updateRecord Scripted.stub None None "docs" Scripted.full
                      Scripted.ready))) ->
      (exists cl, sent x = Req_getCollection cl "docs") \/ is_update x.
Proof.
  destruct (@updateRecord_lookup_only_when_needed Scripted.stub None None
              "docs" Scripted.full Scripted.ready _ _ eq_refl)
    as (Hdirect & _ & _ & Hlen).
  split; [exact Hlen|].
  apply Hdirect. left. exists [0.5%float; 0.25%float].
  split; [reflexivity | discriminate].
Defined.

(** The box is dismissed: the handler returns and the screen shows the
    prompt only. *)
Lemma createTenant_handler_without_name_witness :
  @createTenant_handler Scripted.stub (scripted_editor None) at_rest
  = (Ok tt,
     {| backend := @with_world Scripted.stub Scripted.healthy Scripted.ready;
        screen := [Prompted "New tenant name"] |}).
Proof.
  destruct (@createTenant_handler_without_name Scripted.stub
              (scripted_editor None) at_rest None _
              eq_refl (or_introl eq_refl))
    as (Hrun & _).
  exact Hrun.
Defined.

(** ['acme'] is typed in and the store accepts it: the message follows the
    prompt, and the refresh follows the message. *)
Lemma createTenant_handler_with_name_witness :
  screen (snd (@createTenant_handler Scripted.stub
                 (scripted_editor (Some "acme")) at_rest))
  = [Prompted "New tenant name"; Informed "Tenant 'acme' created"; Refreshed].
Proof.
  destruct (@createTenant_handler_with_name Scripted.stub
              (scripted_editor (Some "acme")) at_rest "acme" _
              eq_refl)
    as (_ & Hshown & _); [discriminate|].
  destruct (Hshown true _ eq_refl) as (_ & Hscreen & _).
  exact Hscreen.
Defined.
